(** * flask-unchained: a shallow embedding of the utility, model-manager,
      CLI-command and hook code, with the properties stated about them.

    Conventions of the embedding.
    - A Python [str] is a Rocq [string]; its characters are the code points
      below 256.  Python's [str.upper] and [str.lower] are not defined here:
      they are an interface, [StrMethods], with the facts used of them.
    - [None]-or-value arguments are [option]s.  The private sentinel
      [_missing] of [utils.py] is never a user value, so a lookup
      "with default [_missing]" is an [option] as well.
    - Objects that the code mutates or compares by identity (descriptors,
      classes, model instances) live in a store and are named by a location.
    - A [dict] whose iteration order the code relies on ([kwargs],
      the class dictionary) is an association list in insertion order. *)

From Stdlib Require Import String Ascii NArith ZArith List Bool Lia.
From stdpp Require Import base option list strings gmap.
Import ListNotations.
Local Open Scope string_scope.

(** ** Python values, dictionaries and classes *)

(** A location: an index of a store. *)
Abbreviation loc := nat (only parsing).

(** The values the modelled code handles.  Objects with identity are named
    by their location in the store of their kind. *)
Inductive Value :=
  | VNone
  | VBool (b : bool)
  | VInt (n : Z)
  | VStr (s : string)
  | VFunc (qualname : string)      (* a function object *)
  | VConfigProperty (l : loc)      (* an instance of utils.ConfigProperty *)
  | VClass (l : loc).              (* a class object *)

(** Truth value of an object, as [not x] and [if x] test it.  Functions,
    descriptors and classes define neither [__bool__] nor [__len__]. *)
Definition truthy (v : Value) : bool :=
  match v with
  | VNone => false
  | VBool b => b
  | VInt n => negb (n =? 0)%Z
  | VStr EmptyString => false
  | _ => true
  end.

(** A [dict] with [str] keys, in insertion order. *)
Definition Dict := list (string * Value).

(** [d.get(name, _missing)] *)
Fixpoint dict_get (d : Dict) (name : string) : option Value :=
  match d with
  | [] => None
  | (k, v) :: d' => if String.eqb k name then Some v else dict_get d' name
  end.

Definition dict_keys (d : Dict) : list string := map fst d.

(** A class object, as attribute lookup sees it: its name and the
    dictionaries of the class and of its ancestors in method resolution
    order. *)
Record Class := { cls_name : string; cls_mro : list Dict }.

(** Lookup of [name] through the method resolution order. *)
Fixpoint mro_lookup (mro : list Dict) (name : string) : option Value :=
  match mro with
  | [] => None
  | d :: mro' =>
      match dict_get d name with
      | Some v => Some v
      | None => mro_lookup mro' name
      end
  end.

Inductive Exception :=
  | AttributeError (name : string)
  | SystemExit (code : string).

Lemma dict_get_None d name : dict_get d name = None <-> name ∉ dict_keys d.
Proof.
  induction d as [|[k v] d IH]; simpl.
  - split; [intros _; apply not_elem_of_nil | done].
  - rewrite not_elem_of_cons. destruct (String.eqb_spec k name) as [->|Hne].
    + split; [done | by intros [? _]].
    + rewrite IH. split; [intros ?; split; [congruence|done] | by intros [_ ?]].
Qed.

Lemma dict_get_Some d name v : dict_get d name = Some v -> (name, v) ∈ d.
Proof.
  induction d as [|[k w] d IH]; simpl; [done|].
  destruct (String.eqb_spec k name) as [->|Hne].
  - intros [= ->]. apply elem_of_cons; by left.
  - intros H. apply elem_of_cons; right; auto.
Qed.

(** ** utils.py *)

Module Utils.

(** *** format_docstring *)

(** Python's whitespace test on a code point below 256, the one both
    [re]'s [\s] (on [str] patterns) and [str.strip()] use. *)
Definition isspace (c : ascii) : bool :=
  let n := N_of_ascii c in
  (((9 <=? n) && (n <=? 13)) || ((28 <=? n) && (n <=? 32))
   || (n =? 133) || (n =? 160))%N.

(** [re.sub(r'\s+', ' ', s)]: every maximal run of whitespace becomes one
    space.  [in_run] tells that the previous character was whitespace, that
    is, that the current match of [\s+] is still open. *)
Fixpoint re_sub_spaces (in_run : bool) (s : string) : string :=
  match s with
  | EmptyString => EmptyString
  | String c s' =>
      if isspace c
      then if in_run then re_sub_spaces true s'
           else String " " (re_sub_spaces true s')
      else String c (re_sub_spaces false s')
  end.

Fixpoint lstrip (s : string) : string :=
  match s with
  | EmptyString => EmptyString
  | String c s' => if isspace c then lstrip s' else s
  end.

Fixpoint rstrip (s : string) : string :=
  match s with
  | EmptyString => EmptyString
  | String c s' =>
      match rstrip s' with
      | EmptyString => if isspace c then EmptyString else String c EmptyString
      | r => String c r
      end
  end.

(** [str.strip()] *)
Definition strip (s : string) : string := lstrip (rstrip s).

(** Truth value of a [str]. *)
Definition str_bool (s : string) : bool :=
  match s with EmptyString => false | _ => true end.

(** [format_docstring(docstring)]; the argument is [None] or a [str]. *)
Definition format_docstring (docstring : option string) : string :=
  match docstring with
  | None => ""
  | Some s => if negb (str_bool s) then "" else strip (re_sub_spaces false s)
  end.

Example format_docstring_ex :
  format_docstring (Some "  Strips   whitespace
     from docstrings.  ") = "Strips whitespace from docstrings.".
Proof. reflexivity. Qed.

(** *** Shape of the strings [format_docstring] returns *)

Definition starts_space (s : string) : bool :=
  match s with EmptyString => false | String c _ => isspace c end.

Fixpoint ends_space (s : string) : bool :=
  match s with
  | EmptyString => false
  | String c EmptyString => isspace c
  | String _ s' => ends_space s'
  end.

(** Every whitespace character is a space and the next one is not. *)
Fixpoint collapsed (s : string) : bool :=
  match s with
  | EmptyString => true
  | String c s' =>
      (if isspace c then Ascii.eqb c " " && negb (starts_space s') else true)
      && collapsed s'
  end.

Lemma isspace_space : isspace " " = true.
Proof. reflexivity. Qed.

Lemma re_sub_spaces_start b s :
  starts_space (re_sub_spaces b s) = negb b && starts_space s.
Proof.
  revert b; induction s as [|c s IH]; intros b; simpl.
  - by rewrite andb_false_r.
  - destruct (isspace c) eqn:Hc.
    + destruct b; simpl; [by rewrite IH | done].
    + simpl. rewrite Hc. by rewrite andb_false_r.
Qed.

Lemma re_sub_spaces_collapsed b s : collapsed (re_sub_spaces b s) = true.
Proof.
  revert b; induction s as [|c s IH]; intros b; simpl; [done|].
  destruct (isspace c) eqn:Hc.
  - destruct b; [done|]. simpl.
    by rewrite re_sub_spaces_start, IH.
  - simpl. by rewrite Hc, IH.
Qed.

Lemma collapsed_fixed b s :
  collapsed s = true -> negb b || negb (starts_space s) = true ->
  re_sub_spaces b s = s.
Proof.
  revert b; induction s as [|c s IH]; intros b Hs Hb; simpl in *; [done|].
  destruct (isspace c) eqn:Hc.
  - apply andb_prop in Hs as [Hs1 Hs2]. apply andb_prop in Hs1 as [He Hn].
    apply Ascii.eqb_eq in He. subst c.
    destruct b; [done|].
    f_equal. apply IH; [done|]. by rewrite Hn.
  - f_equal. apply IH; [done|done].
Qed.

Lemma lstrip_collapsed s : collapsed s = true -> collapsed (lstrip s) = true.
Proof.
  induction s as [|c s IH]; simpl; [done|].
  destruct (isspace c) eqn:Hc; intros H.
  - apply IH. by apply andb_prop in H as [_ H].
  - simpl. by rewrite Hc.
Qed.

Lemma lstrip_start s : starts_space (lstrip s) = false.
Proof.
  induction s as [|c s IH]; simpl; [done|].
  destruct (isspace c) eqn:Hc; [done|]. simpl. by rewrite Hc.
Qed.

Lemma lstrip_fixed s : starts_space s = false -> lstrip s = s.
Proof. destruct s as [|c s]; simpl; [done|]. by intros ->. Qed.

Lemma lstrip_end s : ends_space s = false -> ends_space (lstrip s) = false.
Proof.
  induction s as [|c s IH]; [done|].
  cbn [lstrip]. destruct (isspace c) eqn:Hc; [|done].
  destruct s as [|c' s]; [done|]. apply IH.
Qed.

Lemma rstrip_start s : starts_space s = false -> starts_space (rstrip s) = false.
Proof.
  destruct s as [|c s]; simpl; [done|]. intros Hc.
  destruct (rstrip s); simpl; by rewrite ?Hc.
Qed.

Lemma rstrip_end s : ends_space (rstrip s) = false.
Proof.
  induction s as [|c s IH]; simpl; [done|].
  destruct (rstrip s) as [|c' r] eqn:Hr.
  - destruct (isspace c) eqn:Hc; simpl; by rewrite ?Hc.
  - done.
Qed.

Lemma rstrip_fixed s : ends_space s = false -> rstrip s = s.
Proof.
  induction s as [|c s IH]; simpl; [done|].
  destruct s as [|c' s].
  - simpl. by intros ->.
  - intros H. rewrite (IH H). done.
Qed.

Lemma rstrip_collapsed s : collapsed s = true -> collapsed (rstrip s) = true.
Proof.
  induction s as [|c s IH]; simpl; [done|]. intros H.
  apply andb_prop in H as [H1 H2]. specialize (IH H2).
  destruct (rstrip s) as [|c' r] eqn:Hr.
  - destruct (isspace c) eqn:Hc; simpl; by rewrite ?Hc.
  - simpl in *. rewrite IH, andb_true_r.
    destruct (isspace c) eqn:Hc; [|done].
    apply andb_prop in H1 as [-> H1]. apply negb_true_iff in H1.
    apply rstrip_start in H1. rewrite Hr in H1. simpl in H1. by rewrite H1.
Qed.

Lemma strip_fixed s :
  starts_space s = false -> ends_space s = false -> strip s = s.
Proof.
  intros Hs He. unfold strip. rewrite (rstrip_fixed _ He). by apply lstrip_fixed.
Qed.

(** No two consecutive whitespace characters. *)
Fixpoint no_adjacent_spaces (s : string) : bool :=
  match s with
  | EmptyString => true
  | String c s' => negb (isspace c && starts_space s') && no_adjacent_spaces s'
  end.

Lemma collapsed_no_adjacent s :
  collapsed s = true -> no_adjacent_spaces s = true.
Proof.
  induction s as [|c s IH]; simpl; [done|]. intros H.
  apply andb_prop in H as [H1 H2]. rewrite (IH H2), andb_true_r.
  destruct (isspace c); [|done].
  apply andb_prop in H1 as [_ H1]. simpl. done.
Qed.

(** What the three boolean tests say, on the characters of the string. *)
Lemma no_adjacent_spaces_spec s s1 c1 c2 s2 :
  no_adjacent_spaces s = true -> s = s1 ++ String c1 (String c2 s2) ->
  isspace c1 && isspace c2 = false.
Proof.
  revert s; induction s1 as [|a s1 IH]; intros s H ->; simpl in *.
  - apply andb_prop in H as [H _]. by apply negb_true_iff in H.
  - apply andb_prop in H as [_ H]. by eapply IH.
Qed.

Lemma starts_space_spec s c s' :
  starts_space s = false -> s = String c s' -> isspace c = false.
Proof. by intros H ->. Qed.

Lemma ends_space_spec s s' c :
  ends_space s = false -> s = s' ++ String c EmptyString -> isspace c = false.
Proof.
  revert s; induction s' as [|a s' IH]; intros s H ->; simpl in *; [done|].
  destruct (s' ++ String c "") eqn:E; [by destruct s'|]. by eapply IH.
Qed.

Lemma format_docstring_shape d :
  collapsed (format_docstring d) = true
  /\ starts_space (format_docstring d) = false
  /\ ends_space (format_docstring d) = false.
Proof.
  destruct d as [s|]; simpl; [|done].
  destruct (str_bool s); simpl; [|done].
  unfold strip. split; [|split].
  - apply lstrip_collapsed, rstrip_collapsed, re_sub_spaces_collapsed.
  - apply lstrip_start.
  - apply lstrip_end, rstrip_end.
Qed.

(** C10. [format_docstring] is idempotent; its result has no two consecutive
    whitespace characters and no whitespace at either end; on [None] and on
    the empty string it is the empty string. *)
Theorem format_docstring_idempotent :
  (forall d, format_docstring (Some (format_docstring d)) = format_docstring d)
  /\ (forall d, no_adjacent_spaces (format_docstring d) = true
               /\ starts_space (format_docstring d) = false
               /\ ends_space (format_docstring d) = false)
  /\ format_docstring None = ""
  /\ format_docstring (Some "") = "".
Proof.
  split; [|split; [|done]].
  - intros d. destruct (format_docstring_shape d) as (Hc & Hs & He).
    set (r := format_docstring d) in *. clearbody r. simpl.
    destruct r as [|c r]; [done|]. simpl negb. cbv iota.
    rewrite collapsed_fixed; [by apply strip_fixed|done|done].
  - intros d. destruct (format_docstring_shape d) as (Hc & Hs & He).
    auto using collapsed_no_adjacent.
Qed.

(** *** deep_getattr *)

(** [getattr(base, name, _missing)] on a class object. *)
Definition class_getattr (base : Class) (name : string) : option Value :=
  mro_lookup (cls_mro base) name.

(** The [for base in bases] loop of [deep_getattr]: the value of the first
    base that has the attribute. *)
Fixpoint deep_getattr_bases (bases : list Class) (name : string)
  : option Value :=
  match bases with
  | [] => None
  | base :: bases' =>
      match class_getattr base name with
      | Some value => Some value
      | None => deep_getattr_bases bases' name
      end
  end.

(** [deep_getattr(clsdict, bases, name, default=_missing)]; [default] is
    [None] when the caller gave none. *)
Definition deep_getattr (clsdict : Dict) (bases : list Class) (name : string)
    (default : option Value) : Exception + Value :=
  match dict_get clsdict name with
  | Some value => inr value
  | None =>
      match deep_getattr_bases bases name with
      | Some value => inr value
      | None =>
          match default with
          | Some d => inr d
          | None => inl (AttributeError name)
          end
      end
  end.

(** What [deep_getattr] is said to return, case by case. *)
Inductive deep_getattr_spec (clsdict : Dict) (bases : list Class)
    (name : string) (default : option Value) : Exception + Value -> Prop :=
  | dg_clsdict value :
      dict_get clsdict name = Some value ->
      deep_getattr_spec clsdict bases name default (inr value)
  | dg_base before base after value :
      dict_get clsdict name = None ->
      bases = (before ++ base :: after)%list ->
      Forall (fun b => class_getattr b name = None) before ->
      class_getattr base name = Some value ->
      deep_getattr_spec clsdict bases name default (inr value)
  | dg_default d :
      dict_get clsdict name = None ->
      Forall (fun b => class_getattr b name = None) bases ->
      default = Some d ->
      deep_getattr_spec clsdict bases name default (inr d)
  | dg_raise :
      dict_get clsdict name = None ->
      Forall (fun b => class_getattr b name = None) bases ->
      default = None ->
      deep_getattr_spec clsdict bases name default (inl (AttributeError name)).

Lemma deep_getattr_bases_None bases name :
  deep_getattr_bases bases name = None
  <-> Forall (fun b => class_getattr b name = None) bases.
Proof.
  induction bases as [|b bases IH]; simpl.
  - split; [constructor | done].
  - destruct (class_getattr b name) eqn:Hb.
    + split; [done | intros H; inversion H; congruence].
    + rewrite IH. split; [by constructor | intros H; by inversion H].
Qed.

Lemma deep_getattr_bases_Some bases name value :
  deep_getattr_bases bases name = Some value
  <-> exists before base after,
        bases = (before ++ base :: after)%list
        /\ Forall (fun b => class_getattr b name = None) before
        /\ class_getattr base name = Some value.
Proof.
  induction bases as [|b bases IH]; simpl.
  - split; [done | intros (before & ? & ? & H & _); by destruct before].
  - destruct (class_getattr b name) eqn:Hb.
    + split.
      * intros [= ->]. exists [], b, bases. by repeat split.
      * intros ([|b' before] & base & after & [= <- ->] & Hbefore & Hbase);
          [congruence|].
        inversion Hbefore; congruence.
    + rewrite IH. split.
      * intros (before & base & after & -> & Hbefore & Hbase).
        exists (b :: before), base, after. split; [done|].
        split; [by constructor | done].
      * intros ([|b' before] & base & after & [= <- ->] & Hbefore & Hbase);
          [congruence|].
        exists before, base, after. split; [done|].
        split; [by inversion Hbefore | done].
Qed.

(** C9. [deep_getattr] returns the class dictionary's entry when there is
    one, otherwise the attribute of the first base that has it, otherwise
    the default when one was given; it raises [AttributeError(name)] exactly
    when the name is in neither and no default was given. *)
Theorem deep_getattr_correct clsdict bases name default :
  (forall r, deep_getattr clsdict bases name default = r
             <-> deep_getattr_spec clsdict bases name default r)
  /\ ((exists e, deep_getattr clsdict bases name default = inl e)
      <-> dict_get clsdict name = None
          /\ Forall (fun b => class_getattr b name = None) bases
          /\ default = None).
Proof.
  split.
  - intros r. unfold deep_getattr. split.
    + intros <-. destruct (dict_get clsdict name) as [v|] eqn:Hd;
        [by apply dg_clsdict|].
      destruct (deep_getattr_bases bases name) as [v|] eqn:Hb.
      * apply deep_getattr_bases_Some in Hb
          as (before & base & after & ? & ? & ?).
        by eapply dg_base.
      * apply deep_getattr_bases_None in Hb.
        destruct default as [d|]; [by apply dg_default | by apply dg_raise].
    + intros [v Hd|before base after v Hd -> Hbefore Hbase|d Hd Hb ->|Hd Hb ->];
        rewrite Hd; [done| | |].
      * assert (deep_getattr_bases (before ++ base :: after)%list name = Some v)
          as -> by (apply deep_getattr_bases_Some; eauto 7).
        done.
      * apply deep_getattr_bases_None in Hb. by rewrite Hb.
      * apply deep_getattr_bases_None in Hb. by rewrite Hb.
  - unfold deep_getattr. rewrite <- deep_getattr_bases_None.
    destruct (dict_get clsdict name); [split; [by intros [? ?] | by intros [? _]]|].
    destruct (deep_getattr_bases bases name);
      [split; [by intros [? ?] | by intros (_ & ? & _)]|].
    destruct default; [split; [by intros [? ?] | by intros (_ & _ & ?)]|].
    split; [done | eauto].
Qed.

(** *** ConfigProperty and ConfigPropertyMeta *)

(** The case mappings on ASCII letters. *)
Definition ascii_upper (c : ascii) : ascii :=
  let n := N_of_ascii c in
  if ((97 <=? n) && (n <=? 122))%N then ascii_of_N (n - 32) else c.

Definition ascii_lower (c : ascii) : ascii :=
  let n := N_of_ascii c in
  if ((65 <=? n) && (n <=? 90))%N then ascii_of_N (n + 32) else c.

Fixpoint upper_ascii (s : string) : string :=
  match s with
  | EmptyString => EmptyString
  | String c s' => String (ascii_upper c) (upper_ascii s')
  end.

Fixpoint lower_ascii (s : string) : string :=
  match s with
  | EmptyString => EmptyString
  | String c s' => String (ascii_lower c) (lower_ascii s')
  end.

Fixpoint is_ascii (s : string) : bool :=
  match s with
  | EmptyString => true
  | String c s' => (N_of_ascii c <? 128)%N && is_ascii s'
  end.

(** [str.upper()] and [str.lower()] are Python's own, with the case mapping
    of Unicode, which is not reproduced here: the code only calls them.
    They are taken as given, with the facts about them that are used: on a
    string of ASCII characters they map the letters a-z and A-Z and nothing
    else, and the upper case of a string is empty only if the string is. *)
Class StrMethods := {
  upper : string -> string;
  lower : string -> string;
  upper_is_ascii : forall s, is_ascii s = true -> upper s = upper_ascii s;
  lower_is_ascii : forall s, is_ascii s = true -> lower s = lower_ascii s;
  upper_nonempty : forall s, upper s = EmptyString -> s = EmptyString
}.

(** The two methods on ASCII strings, to run the code on examples. *)
Definition ascii_str_methods : StrMethods.
Proof.
  refine {| upper := upper_ascii; lower := lower_ascii |};
    [done | done | by intros [|c s]].
Defined.

Fixpoint str_mem (c : ascii) (chars : string) : bool :=
  match chars with
  | EmptyString => false
  | String c' chars' => Ascii.eqb c c' || str_mem c chars'
  end.

(** [s.rstrip(chars)] *)
Fixpoint rstrip_chars (chars : string) (s : string) : string :=
  match s with
  | EmptyString => EmptyString
  | String c s' =>
      match rstrip_chars chars s' with
      | EmptyString => if str_mem c chars then EmptyString
                       else String c EmptyString
      | r => String c r
      end
  end.

(** An instance of [ConfigProperty]: its one field. *)
Record ConfigProperty := { key : Value }.

(** [ConfigProperty(key=None)] allocates a descriptor in the store of
    descriptors; a location is an index of the store. *)
Definition ConfigProperty_new (k : option Value) (h : list ConfigProperty)
  : loc * list ConfigProperty :=
  (length h, (h ++ [{| key := default VNone k |}])%list).

(** The body of the loop of [ConfigPropertyMeta.__init__] for one item of
    the class dictionary. *)
Definition inject_key `{StrMethods} (config_prefix : string)
    (h : list ConfigProperty)
    (property_name : string) (descriptor : Value) : list ConfigProperty :=
  match descriptor with
  | VConfigProperty l =>
      match h !! l with
      | Some d =>
          if negb (truthy (key d))
          then <[l := {| key := VStr (upper (config_prefix ++ "_" ++ property_name)) |}]> h
          else h
      | None => h
      end
  | _ => h
  end.

(** [ConfigPropertyMeta.__init__(cls, class_name, bases, clsdict)], on the
    store of descriptors.  [type.__init__] does nothing; [.rstrip] exists on
    a [str] only. *)
Definition ConfigPropertyMeta_init `{StrMethods} (class_name : string)
    (bases : list Class) (clsdict : Dict) (h : list ConfigProperty)
  : Exception + list ConfigProperty :=
  match default (VStr class_name) (dict_get clsdict "__config_prefix__") with
  | VStr p =>
      let config_prefix := rstrip_chars "_" p in
      inr (foldl (fun h '(property_name, descriptor) =>
                    inject_key config_prefix h property_name descriptor)
                 h clsdict)
  | _ => inl (AttributeError "rstrip")
  end.

(** The example of the docstring of [ConfigPropertyMeta]. *)
Example MyExtension_keys :
  let '(foobar, h) := ConfigProperty_new None [] in
  let '(custom, h) := ConfigProperty_new (Some (VStr "MY_EXTENSION_CUSTOM")) h in
  @ConfigPropertyMeta_init ascii_str_methods "MyExtension" []
    [("__config_prefix__", VStr "MY_EXTENSION");
     ("foobar", VConfigProperty foobar); ("_custom", VConfigProperty custom)] h
  = inr [{| key := VStr "MY_EXTENSION_FOOBAR" |};
         {| key := VStr "MY_EXTENSION_CUSTOM" |}].
Proof. reflexivity. Qed.

(** The first name of the class dictionary bound to the descriptor [l]. *)
Fixpoint first_name (clsdict : Dict) (l : loc) : option string :=
  match clsdict with
  | [] => None
  | (property_name, VConfigProperty l') :: clsdict' =>
      if Nat.eqb l' l then Some property_name else first_name clsdict' l
  | _ :: clsdict' => first_name clsdict' l
  end.

Fixpoint str_repeat (c : ascii) (n : nat) : string :=
  match n with O => EmptyString | S n' => String c (str_repeat c n') end.

Fixpoint ends_with (c : ascii) (s : string) : bool :=
  match s with
  | EmptyString => false
  | String c' EmptyString => Ascii.eqb c' c
  | String _ s' => ends_with c s'
  end.

Lemma str_app_nil s : "" ++ s = s.
Proof. reflexivity. Qed.

Lemma str_app_cons c s t : String c s ++ t = String c (s ++ t).
Proof. reflexivity. Qed.

Lemma rstrip_underscores s :
  (exists n, s = rstrip_chars "_" s ++ str_repeat "_" n)
  /\ ends_with "_" (rstrip_chars "_" s) = false.
Proof.
  induction s as [|c s [[n IHn] IHe]]; simpl.
  - split; [by exists 0 | done].
  - destruct (rstrip_chars "_" s) as [|c' r] eqn:Hr.
    + rewrite str_app_nil in IHn. rewrite orb_false_r.
      destruct (Ascii.eqb_spec c "_") as [->|Hne].
      * split; [exists (S n); rewrite str_app_nil; simpl; by f_equal | done].
      * split; [exists n; rewrite str_app_cons, str_app_nil; by f_equal|].
        simpl. by apply Ascii.eqb_neq.
    + split; [exists n; rewrite str_app_cons; by f_equal | done].
Qed.

Lemma first_name_app xs ys l :
  first_name (xs ++ ys)%list l
  = match first_name xs l with Some n => Some n | None => first_name ys l end.
Proof.
  induction xs as [|[n v] xs IH]; simpl; [done|].
  destruct v; try done. by destruct (Nat.eqb l0 l).
Qed.

Lemma injected_key_truthy `{StrMethods} p n :
  truthy (VStr (upper (p ++ "_" ++ n))) = true.
Proof.
  destruct (upper (p ++ "_" ++ n)) eqn:E; [|done].
  apply upper_nonempty in E. by destruct p.
Qed.

Lemma inject_key_length `{StrMethods} p h n v :
  length (inject_key p h n v) = length h.
Proof.
  unfold inject_key. destruct v; try done.
  destruct (h !! l); [|done].
  destruct (negb _); [by rewrite length_insert | done].
Qed.

(** The store after the loop over [clsdict], descriptor by descriptor. *)
Lemma inject_keys_lookup `{StrMethods} p clsdict (h : list ConfigProperty) l d :
  h !! l = Some d ->
  foldl (fun h '(property_name, descriptor) =>
           inject_key p h property_name descriptor) h clsdict !! l
  = Some (if truthy (key d) then d
          else match first_name clsdict l with
               | Some property_name =>
                   {| key := VStr (upper (p ++ "_" ++ property_name)) |}
               | None => d
               end).
Proof.
  intros Hl. induction clsdict as [|[n v] xs IH] using rev_ind; simpl.
  - rewrite Hl. by destruct (truthy (key d)).
  - rewrite foldl_app, first_name_app. simpl.
    set (hc := foldl _ h xs) in *.
    unfold inject_key.
    destruct v as [| | | | |l0|l0];
      try (rewrite IH; by destruct (truthy (key d)), (first_name xs l)).
    destruct (Nat.eqb_spec l0 l) as [->|Hne].
    + rewrite IH. destruct (truthy (key d)) eqn:Hk.
      * by rewrite Hk.
      * destruct (first_name xs l) as [n'|].
        -- cbn [key]. by rewrite injected_key_truthy.
        -- rewrite Hk. simpl. rewrite list_lookup_insert_eq; [done|].
           by apply lookup_lt_Some in IH.
    + assert (forall h2 : list ConfigProperty, h2 !! l = hc !! l ->
              h2 !! l = Some (if truthy (key d) then d
                              else match first_name xs l with
                                   | Some n' => {| key := VStr (upper (p ++ "_" ++ n')) |}
                                   | None => d
                                   end)) as Hsame.
      { intros h2 ->. rewrite IH. done. }
      destruct (first_name xs l) eqn:Hf.
      * destruct (hc !! l0); [destruct (negb _)|]; apply Hsame; try done.
        by rewrite list_lookup_insert_ne.
      * destruct (hc !! l0); [destruct (negb _)|]; apply Hsame; try done.
        by rewrite list_lookup_insert_ne.
Qed.

Lemma inject_keys_length `{StrMethods} p clsdict (h : list ConfigProperty) :
  length (foldl (fun h '(property_name, descriptor) =>
                   inject_key p h property_name descriptor) h clsdict)
  = length h.
Proof.
  revert h; induction clsdict as [|[n v] xs IH]; intros h; simpl; [done|].
  by rewrite IH, inject_key_length.
Qed.

Lemma first_name_elem clsdict l n :
  first_name clsdict l = Some n -> (n, VConfigProperty l) ∈ clsdict.
Proof.
  induction clsdict as [|[n' v] xs IH]; simpl; [done|].
  destruct v; try (intros H; apply elem_of_cons; right; by apply IH).
  destruct (Nat.eqb_spec l0 l) as [->|Hne].
  - intros [= ->]. apply elem_of_cons; by left.
  - intros H; apply elem_of_cons; right; by apply IH.
Qed.

(** A descriptor bound under one name only has that name as its first. *)
Lemma first_name_only clsdict l n :
  (n, VConfigProperty l) ∈ clsdict ->
  (forall n', (n', VConfigProperty l) ∈ clsdict -> n' = n) ->
  first_name clsdict l = Some n.
Proof.
  intros Hin Hall. destruct (first_name clsdict l) as [n'|] eqn:Hf.
  - apply first_name_elem in Hf. by rewrite (Hall _ Hf).
  - exfalso. clear Hall. induction clsdict as [|[n' v] xs IH]; simpl in *.
    + by apply elem_of_nil in Hin.
    + apply elem_of_cons in Hin as [[= <- <-]|Hin].
      * by rewrite Nat.eqb_refl in Hf.
      * apply IH; [done|]. destruct v; try done.
        by destruct (Nat.eqb l0 l).
Qed.

(** C5 as it is stated, in its two parts, for Python's [upper] whatever it
    is: a descriptor of the class dictionary whose key is unset ([None])
    gets the key made of the prefix and its property name; a descriptor
    with an explicit key keeps it. *)
Definition ConfigPropertyMeta_unset_as_stated : Prop :=
  forall (S : StrMethods) class_name bases clsdict h h' raw property_name l,
    default (VStr class_name) (dict_get clsdict "__config_prefix__") = VStr raw ->
    ConfigPropertyMeta_init class_name bases clsdict h = inr h' ->
    (property_name, VConfigProperty l) ∈ clsdict ->
    h !! l = Some {| key := VNone |} ->
    h' !! l = Some {| key := VStr (upper (rstrip_chars "_" raw ++ "_"
                                           ++ property_name)) |}.

Definition ConfigPropertyMeta_explicit_as_stated : Prop :=
  forall (S : StrMethods) class_name bases clsdict h h' property_name l d,
    ConfigPropertyMeta_init class_name bases clsdict h = inr h' ->
    (property_name, VConfigProperty l) ∈ clsdict ->
    h !! l = Some d ->
    key d <> VNone ->
    h' !! l = Some d.

(** The explicit key [''] is replaced like an unset one. *)
Example ConfigProperty_empty_key :
  let '(l, h) := ConfigProperty_new (Some (VStr "")) [] in
  h = [{| key := VStr "" |}]
  /\ @ConfigPropertyMeta_init ascii_str_methods "Ext" []
       [("name", VConfigProperty l)] h
     = inr [{| key := VStr "EXT_NAME" |}].
Proof. by split. Qed.

(** One descriptor bound to two names, [a = b = ConfigProperty()], gets its
    key from the first: when the loop reaches [b] the key is set. *)
Example ConfigProperty_two_names :
  let '(l, h) := ConfigProperty_new None [] in
  @ConfigPropertyMeta_init ascii_str_methods "Ext" []
    [("a", VConfigProperty l); ("b", VConfigProperty l)] h
  = inr [{| key := VStr "EXT_A" |}].
Proof. reflexivity. Qed.

(** C5 does not hold as stated, in either part: a descriptor bound to the
    names [a] and [b] does not get the key of [b], and [ConfigProperty('')]
    does not keep its explicit key. *)
Lemma ConfigPropertyMeta_keys_as_stated_fails :
  ~ ConfigPropertyMeta_unset_as_stated
  /\ ~ ConfigPropertyMeta_explicit_as_stated.
Proof.
  split; intros H.
  - specialize (H ascii_str_methods "Ext" []
                  [("a", VConfigProperty 0); ("b", VConfigProperty 0)]
                  [{| key := VNone |}] [{| key := VStr "EXT_A" |}]
                  "Ext" "b" 0).
    discriminate H; try done. apply elem_of_cons; right. apply elem_of_cons; by left.
  - specialize (H ascii_str_methods "Ext" [] [("name", VConfigProperty 0)]
                  [{| key := VStr "" |}] [{| key := VStr "EXT_NAME" |}]
                  "name" 0 {| key := VStr "" |}).
    discriminate H; try done. apply elem_of_cons; by left.
Qed.

(** C5, amended.  When the class is constructed ([__config_prefix__], or the
    class name in its absence, is a [str]), the prefix is that string without
    its trailing underscores, and every descriptor of the store ends up as
    follows: one whose key is truthy keeps it; one whose key is falsy
    ([None], but also an explicit [''], [0] or [False]) and that the class
    dictionary binds gets [upper] of [prefix_name], where [name] is the
    first property name bound to it; any other is unchanged. *)
Theorem ConfigPropertyMeta_init_keys `{StrMethods}
    class_name bases clsdict h h' :
  ConfigPropertyMeta_init class_name bases clsdict h = inr h' ->
  exists raw,
    default (VStr class_name) (dict_get clsdict "__config_prefix__") = VStr raw
    /\ (exists n, raw = rstrip_chars "_" raw ++ str_repeat "_" n)
    /\ ends_with "_" (rstrip_chars "_" raw) = false
    /\ length h' = length h
    /\ forall l d, h !! l = Some d ->
         h' !! l
         = Some (if truthy (key d) then d
                 else match first_name clsdict l with
                      | Some property_name =>
                          {| key := VStr (upper (rstrip_chars "_" raw ++ "_"
                                                  ++ property_name)) |}
                      | None => d
                      end).
Proof.
  unfold ConfigPropertyMeta_init.
  destruct (default _ _) as [| | |raw| | |]; try done.
  intros [= <-]. exists raw. split; [done|].
  destruct (rstrip_underscores raw) as [Hn He].
  repeat split; [done|done|apply inject_keys_length|].
  intros l d Hl. by apply inject_keys_lookup.
Qed.

Lemma ConfigPropertyMeta_init_keys_witness :
  exists raw,
    default (VStr "MyExtension")
      (dict_get [("__config_prefix__", VStr "MY_EXTENSION_");
                 ("foobar", VConfigProperty 0); ("_custom", VConfigProperty 1)]
         "__config_prefix__") = VStr raw
    /\ (exists n, raw = rstrip_chars "_" raw ++ str_repeat "_" n)
    /\ ends_with "_" (rstrip_chars "_" raw) = false
    /\ length [{| key := VStr "MY_EXTENSION_FOOBAR" |};
               {| key := VStr "MY_EXTENSION_CUSTOM" |}]
       = length [{| key := VNone |}; {| key := VStr "MY_EXTENSION_CUSTOM" |}]
    /\ forall l d,
         [{| key := VNone |}; {| key := VStr "MY_EXTENSION_CUSTOM" |}] !! l
         = Some d ->
         [{| key := VStr "MY_EXTENSION_FOOBAR" |};
          {| key := VStr "MY_EXTENSION_CUSTOM" |}] !! l
         = Some (if truthy (key d) then d
                 else match first_name
                              [("__config_prefix__", VStr "MY_EXTENSION_");
                               ("foobar", VConfigProperty 0);
                               ("_custom", VConfigProperty 1)] l with
                      | Some property_name =>
                          {| key := VStr (upper_ascii (rstrip_chars "_" raw
                                                        ++ "_" ++ property_name)) |}
                      | None => d
                      end).
Proof.
  apply (@ConfigPropertyMeta_init_keys ascii_str_methods "MyExtension" []
           [("__config_prefix__", VStr "MY_EXTENSION_");
            ("foobar", VConfigProperty 0); ("_custom", VConfigProperty 1)]
           [{| key := VNone |}; {| key := VStr "MY_EXTENSION_CUSTOM" |}]).
  reflexivity.
Defined.

(** *** OptionalMetaclass and OptionalClass *)

Section OptionalMetaclass.

(** What every class inherits from [object], and what attribute lookup on a
    class finds on [type]: [__repr__], [__name__], [mro] and so on.  Their
    exact content depends on the interpreter and is left open. *)
Variable object_dict : Dict.
Variable type_dict : Dict.

(** Whether the interpreter refuses a class whose class cell was not set:
    a class body that uses [super()] or [__class__] puts [__classcell__] in
    the class dictionary, and when that entry does not reach [type.__new__],
    Python 3.8 and later raise [RuntimeError]; 3.6 and 3.7 only warn. *)
Variable classcell_required : bool.

(** The classes of the program by location, and the class attribute
    [OptionalMetaclass.__optional_class]: [None] or the stand-in. *)
Record MetaState := {
  classes : list Class;
  optional_class : option loc
}.

(** Inside the metaclass the name [__optional_class] is mangled. *)
Definition mangled : string := "_OptionalMetaclass__optional_class".

(** The namespace of [OptionalMetaclass] itself. *)
Definition metaclass_dict (st : MetaState) : Dict :=
  [("__module__", VStr "flask_unchained.utils");
   ("__qualname__", VStr "OptionalMetaclass");
   (mangled, match optional_class st with
             | None => VNone
             | Some c => VClass c
             end);
   ("__new__", VFunc "OptionalMetaclass.__new__");
   ("__getattr__", VFunc "OptionalMetaclass.__getattr__");
   ("__setattr__", VFunc "OptionalMetaclass.__setattr__");
   ("__call__", VFunc "OptionalMetaclass.__call__");
   ("__getitem__", VFunc "OptionalMetaclass.__getitem__");
   ("__setitem__", VFunc "OptionalMetaclass.__setitem__")].

(** [type.__new__(mcs, name, bases, clsdict)]: a new class object.  Its
    method resolution order is its own dictionary followed by that of its
    bases, or by [object]'s when it has none. *)
Definition type_new (name : string) (bases : list loc) (clsdict : Dict)
    (st : MetaState) : loc * MetaState :=
  let inherited :=
    match bases with
    | [] => [object_dict]
    | _ => flat_map (fun b => match classes st !! b with
                              | Some base => cls_mro base
                              | None => []
                              end) bases
    end in
  (length (classes st),
   {| classes := (classes st ++ [{| cls_name := name;
                                     cls_mro := clsdict :: inherited |}])%list;
      optional_class := optional_class st |}).

(** [OptionalMetaclass.__new__(mcs, name, bases, clsdict)] *)
Definition OptionalMetaclass_new (name : string) (bases : list loc)
    (clsdict : Dict) (st : MetaState) : loc * MetaState :=
  match optional_class st with
  | None =>
      let '(c, st') := type_new name bases clsdict st in
      (c, {| classes := classes st'; optional_class := Some c |})
  | Some c => (c, st)
  end.

(** The default attribute lookup on a class whose metaclass is
    [OptionalMetaclass]: the class and its ancestors first, then the
    metaclass and [type].  [None] stands for its [AttributeError]. *)
Definition default_getattr (st : MetaState) (self : loc) (name : string)
  : option Value :=
  match classes st !! self with
  | Some cls =>
      mro_lookup (cls_mro cls ++ [metaclass_dict st; type_dict])%list name
  | None => None
  end.

(** [self.__optional_class], as the methods of the metaclass read it. *)
Definition self_optional_class (st : MetaState) (self : loc) : option Value :=
  default_getattr st self mangled.

(** [OptionalMetaclass.__getattr__(self, item)] *)
Definition OptionalMetaclass_getattr (st : MetaState) (self : loc)
    (item : string) : option Value :=
  self_optional_class st self.

(** [OptionalMetaclass.__setattr__(self, key, value)]: [pass]. *)
Definition OptionalMetaclass_setattr (st : MetaState) (self : loc)
    (key : string) (value : Value) : MetaState := st.

(** [OptionalMetaclass.__call__(self, *args, **kwargs)] *)
Definition OptionalMetaclass_call (st : MetaState) (self : loc)
    (args : list Value) (kwargs : Dict) : option Value :=
  self_optional_class st self.

(** [OptionalMetaclass.__getitem__(self, item)] *)
Definition OptionalMetaclass_getitem (st : MetaState) (self : loc)
    (item : Value) : option Value :=
  self_optional_class st self.

(** [OptionalMetaclass.__setitem__(self, key, value)]: [pass]. *)
Definition OptionalMetaclass_setitem (st : MetaState) (self : loc)
    (key value : Value) : MetaState := st.

(** The expression [self.name] on such a class: Python calls [__getattr__]
    only when the default lookup has failed. *)
Definition getattr (st : MetaState) (self : loc) (name : string)
  : option Value :=
  match default_getattr st self name with
  | Some v => Some v
  | None => OptionalMetaclass_getattr st self name
  end.

(** What a program can do with a class that uses the metaclass.  A class
    statement has a name, bases, the dictionary of its body and the keywords
    given besides [metaclass]. *)
Inductive Op :=
  | ClassStatement (name : string) (bases : list loc) (clsdict : Dict)
                   (kwds : Dict)
  | GetAttr (item : string)
  | SetAttr (key : string) (value : Value)
  | Call (args : list Value) (kwargs : Dict)
  | GetItem (item : Value)
  | SetItem (key value : Value).

(** Whether a class statement raises instead of giving a class:
    [__new__] takes no keyword ([TypeError]), and a class cell that
    [__new__] did not pass to [type.__new__], because the stand-in was
    there already, is refused as said above. *)
Definition class_statement_raises (st : MetaState) (clsdict kwds : Dict)
  : bool :=
  match kwds with
  | _ :: _ => true
  | [] =>
      classcell_required
      && match optional_class st, dict_get clsdict "__classcell__" with
         | Some _, Some _ => true
         | _, _ => false
         end
  end.

(** One operation: its result, [None] when it raises, and the state
    after it. *)
Definition step (self : loc) (op : Op) (st : MetaState)
  : option Value * MetaState :=
  match op with
  | ClassStatement name bases clsdict kwds =>
      match kwds with
      | _ :: _ => (None, st)
      | [] =>
          let '(c, st') := OptionalMetaclass_new name bases clsdict st in
          (if class_statement_raises st clsdict kwds then None
           else Some (VClass c), st')
      end
  | GetAttr item => (getattr st self item, st)
  | SetAttr key value => (Some VNone, OptionalMetaclass_setattr st self key value)
  | Call args kwargs => (OptionalMetaclass_call st self args kwargs, st)
  | GetItem item => (OptionalMetaclass_getitem st self item, st)
  | SetItem key value => (Some VNone, OptionalMetaclass_setitem st self key value)
  end.

Fixpoint run (self : loc) (ops : list Op) (st : MetaState)
  : list (option Value) * MetaState :=
  match ops with
  | [] => ([], st)
  | op :: ops' =>
      let '(r, st') := step self op st in
      let '(rs, st'') := run self ops' st' in
      (r :: rs, st'')
  end.

(** The stand-in exists: it is the class [c], which does not itself define
    the mangled name. *)
Definition stand_in (st : MetaState) (c : loc) : Prop :=
  optional_class st = Some c
  /\ exists cls, classes st !! c = Some cls
               /\ mro_lookup (cls_mro cls) mangled = None.

(** The result of each operation once the stand-in [c] exists. *)
Definition answer (st : MetaState) (c : loc) (op : Op) : option Value :=
  match op with
  | GetAttr item =>
      match default_getattr st c item with
      | Some v => Some v
      | None => Some (VClass c)
      end
  | SetAttr _ _ | SetItem _ _ => Some VNone
  | ClassStatement _ _ clsdict kwds =>
      if class_statement_raises st clsdict kwds then None
      else Some (VClass c)
  | Call _ _ | GetItem _ => Some (VClass c)
  end.

Lemma mro_lookup_app xs ys name :
  mro_lookup (xs ++ ys)%list name
  = match mro_lookup xs name with
    | Some v => Some v
    | None => mro_lookup ys name
    end.
Proof.
  induction xs as [|d xs IH]; simpl; [done|].
  by destruct (dict_get d name).
Qed.

Lemma self_optional_class_stand_in st c :
  stand_in st c -> self_optional_class st c = Some (VClass c).
Proof.
  intros (Ho & cls & Hc & Hm).
  unfold self_optional_class, default_getattr.
  rewrite Hc, mro_lookup_app, Hm. simpl. by rewrite Ho.
Qed.

Lemma step_stand_in st c op :
  stand_in st c -> step c op st = (answer st c op, st).
Proof.
  intros Hs. pose proof (self_optional_class_stand_in _ _ Hs) as Hself.
  destruct op as [name bases clsdict kwds|item|k v|args kwargs|item|k v];
    simpl; try done.
  - destruct kwds; [|done].
    unfold OptionalMetaclass_new. destruct Hs as [Ho _]. by rewrite Ho.
  - unfold getattr, OptionalMetaclass_getattr. rewrite Hself.
    by destruct (default_getattr st c item).
  - unfold OptionalMetaclass_call. by rewrite Hself.
  - unfold OptionalMetaclass_getitem. by rewrite Hself.
Qed.

Lemma run_stand_in st c ops :
  stand_in st c -> run c ops st = (map (answer st c) ops, st).
Proof.
  intros Hs. induction ops as [|op ops IH]; simpl; [done|].
  by rewrite (step_stand_in _ _ _ Hs), IH.
Qed.

(** The first class statement creates the stand-in. *)
Lemma OptionalMetaclass_new_first name clsdict st :
  optional_class st = None ->
  mro_lookup [clsdict; object_dict] mangled = None ->
  let '(c, st') := OptionalMetaclass_new name [] clsdict st in
  c = length (classes st) /\ stand_in st' c.
Proof.
  intros Ho Hm. unfold OptionalMetaclass_new. rewrite Ho. simpl.
  split; [done|]. split; [done|]. simpl.
  eexists. split; [by rewrite lookup_app_r, Nat.sub_diag | exact Hm].
Qed.

End OptionalMetaclass.

(** The class statement of [OptionalClass], the first to use the
    metaclass. *)
Definition OptionalClass_dict : Dict :=
  [("__module__", VStr "flask_unchained.utils");
   ("__qualname__", VStr "OptionalClass");
   ("__doc__", VStr "Use this as a generic base class if you have classes that depend on an optional package.");
   ("__init__", VFunc "OptionalClass.__init__")].

Definition OptionalClass_defined (object_dict type_dict : Dict)
  : loc * MetaState :=
  OptionalMetaclass_new object_dict "OptionalClass" [] OptionalClass_dict
    {| classes := []; optional_class := None |}.

(** The serializer of the docstring of [OptionalClass]: the base class
    [ma.ModelSerializer] and the class built on it are both the stand-in,
    and the body of the class statement is dropped. *)
Example MySerializer_is_OptionalClass :
  let '(ma, st) := OptionalClass_defined [] [] in
  run [] [] true ma
    [GetAttr "ModelSerializer";
     ClassStatement "MySerializer" [ma]
       [("__qualname__", VStr "MySerializer")] [];
     GetAttr "Meta"] st
  = ([Some (VClass ma); Some (VClass ma); Some (VClass ma)], st).
Proof. reflexivity. Qed.

(** A serializer whose body calls [super()] cannot be defined where the
    class cell is required, nor one with a class keyword. *)
Example class_statement_with_super :
  let '(ma, st) := OptionalClass_defined [] [] in
  run [] [] true ma
    [ClassStatement "MySerializer" [ma] [("__classcell__", VNone)] [];
     ClassStatement "MySerializer" [ma] [] [("abstract", VBool true)]] st
  = ([None; None], st).
Proof. reflexivity. Qed.

(** The state once [utils.py] is loaded: the stand-in is [OptionalClass],
    the first and only class made with the metaclass. *)
Definition OptionalClass_is_stand_in (object_dict : Dict) (st : MetaState)
    (c : loc) : Prop :=
  optional_class st = Some c
  /\ classes st !! c = Some {| cls_name := "OptionalClass";
                               cls_mro := [OptionalClass_dict; object_dict] |}.

(** C6 as it is stated: once the stand-in exists, attribute access,
    subscripting and calling each return it, and the assignments change
    nothing; this for whatever [object] and [type] provide, [object] having
    no attribute of the mangled name. *)
Definition OptionalMetaclass_as_stated : Prop :=
  forall object_dict type_dict st c,
    dict_get object_dict mangled = None ->
    OptionalClass_is_stand_in object_dict st c ->
    (forall item, getattr type_dict st c item = Some (VClass c))
    /\ (forall args kwargs,
          OptionalMetaclass_call type_dict st c args kwargs = Some (VClass c))
    /\ (forall item,
          OptionalMetaclass_getitem type_dict st c item = Some (VClass c))
    /\ (forall k v, OptionalMetaclass_setattr st c k v = st)
    /\ (forall k v, OptionalMetaclass_setitem st c k v = st).

(** [OptionalClass.__init__] is the function of the class body: the default
    lookup finds it, and [__getattr__] is not called. *)
Example OptionalClass_init_attribute :
  let '(c, st) := OptionalClass_defined [] [] in
  OptionalClass_is_stand_in [] st c
  /\ getattr [] st c "__init__" = Some (VFunc "OptionalClass.__init__").
Proof. by split. Qed.

(** C6 does not hold as stated: attribute access on the class returns the
    stand-in only for the names that the default lookup does not find. *)
Lemma OptionalMetaclass_as_stated_fails : ~ OptionalMetaclass_as_stated.
Proof.
  intros H.
  destruct (H [] [] (snd (OptionalClass_defined [] [])) 0) as [Hget _];
    [done | by split |].
  discriminate (Hget "__init__").
Qed.

Lemma OptionalClass_stand_in object_dict st c :
  dict_get object_dict mangled = None ->
  OptionalClass_is_stand_in object_dict st c -> stand_in st c.
Proof.
  intros Ho [Hc Hcls]. split; [done|]. eexists. split; [exact Hcls|].
  simpl. by rewrite Ho.
Qed.

(** C6, amended.  Once the stand-in [c] exists, a call and a subscript each
    return [c]; attribute access returns [c] for every name that the
    default lookup does not find, and the found attribute otherwise; the
    two assignments change no state. *)
Theorem OptionalMetaclass_single_stand_in object_dict type_dict st c :
  dict_get object_dict mangled = None ->
  OptionalClass_is_stand_in object_dict st c ->
  (forall item,
      getattr type_dict st c item
      = match default_getattr type_dict st c item with
        | Some v => Some v
        | None => Some (VClass c)
        end)
  /\ (forall args kwargs,
        OptionalMetaclass_call type_dict st c args kwargs = Some (VClass c))
  /\ (forall item,
        OptionalMetaclass_getitem type_dict st c item = Some (VClass c))
  /\ (forall k v, OptionalMetaclass_setattr st c k v = st)
  /\ (forall k v, OptionalMetaclass_setitem st c k v = st).
Proof.
  intros Ho Hc.
  pose proof (self_optional_class_stand_in type_dict _ _
                (OptionalClass_stand_in _ _ _ Ho Hc)) as Hself.
  split; [|done].
  intros item. unfold getattr, OptionalMetaclass_getattr. rewrite Hself.
  by destruct (default_getattr type_dict st c item).
Qed.

Lemma OptionalMetaclass_single_stand_in_witness :
  let st := snd (OptionalClass_defined [] []) in
  getattr [] st 0 "ModelSerializer" = Some (VClass 0)
  /\ getattr [] st 0 "__init__" = Some (VFunc "OptionalClass.__init__")
  /\ OptionalMetaclass_call [] st 0 [VInt 1] [] = Some (VClass 0)
  /\ OptionalMetaclass_getitem [] st 0 (VStr "k") = Some (VClass 0)
  /\ OptionalMetaclass_setattr st 0 "model" (VStr "MyModel") = st
  /\ OptionalMetaclass_setitem st 0 (VStr "k") VNone = st.
Proof.
  destruct (OptionalMetaclass_single_stand_in [] []
              (snd (OptionalClass_defined [] [])) 0)
    as (Hget & Hcall & Hitem & Hset & Hsetitem).
  - reflexivity.
  - split; reflexivity.
  - split; [exact (Hget "ModelSerializer")|].
    split; [exact (Hget "__init__")|].
    split; [exact (Hcall [VInt 1] [])|].
    split; [exact (Hitem (VStr "k"))|].
    split; [exact (Hset "model" (VStr "MyModel")) | exact (Hsetitem (VStr "k") VNone)].
Defined.

End Utils.

(** ** bundles/sqlalchemy/services/model_manager.py *)

Module SQLAlchemy.

(** A model class: its [__name__], and the truth value of its instances as
    a function of their attributes (constantly [true] for a class that
    defines neither [__bool__] nor [__len__]). *)
Record Model := {
  model_name : string;
  model_bool : gmap string Value -> bool
}.

Record Instance := {
  inst_class : Model;
  inst_attrs : gmap string Value
}.

(** The instances by location, and the database session: the instances
    added since the last commit, and those committed. *)
Record Store := {
  objects : list Instance;
  pending : list loc;
  committed : list loc
}.

(** Code that reads and writes the store. *)
Definition M (A : Type) : Type := Store -> A * Store.

Definition ret {A} (a : A) : M A := fun st => (a, st).

Definition bind {A B} (c : M A) (k : A -> M B) : M B :=
  fun st => let '(a, st') := c st in k a st'.

Notation "'let*' x := c 'in' k" := (bind c (fun x => k))
  (at level 10, x pattern, c at level 100, k at level 200).

(** The query interface of the ORM, [BaseQuery], which is not part of this
    repository: [Model.query] and the four methods the manager calls. *)
Class ORM := {
  Query : Type;
  model_query : Model -> Query;
  query_get : Query -> Value -> M (option loc);
  query_get_by : Query -> Dict -> M (option loc);
  query_filter_by : Query -> Dict -> Query;
  query_all : Query -> M (list loc)
}.

(** [setattr(instance, attr, value)] *)
Definition set_attr (attr : string) (value : Value) (o : Instance) : Instance :=
  {| inst_class := inst_class o;
     inst_attrs := <[attr := value]> (inst_attrs o) |}.

Definition setattr (instance : loc) (attr : string) (value : Value) : M unit :=
  fun st => (tt, {| objects := alter (set_attr attr value) instance (objects st);
                    pending := pending st;
                    committed := committed st |}).

(** [for attr, value in kwargs.items(): setattr(instance, attr, value)] *)
Fixpoint setattrs (instance : loc) (kwargs : Dict) : M unit :=
  match kwargs with
  | [] => ret tt
  | (attr, value) :: kwargs' =>
      let* _ := setattr instance attr value in
      setattrs instance kwargs'
  end.

(** [session.add(instance)] and [session.commit()] *)
Definition session_add (instance : loc) : M unit :=
  fun st => (tt, {| objects := objects st;
                    pending := if bool_decide (instance ∈ pending st)
                               then pending st
                               else (pending st ++ [instance])%list;
                    committed := committed st |}).

Definition session_commit : M unit :=
  fun st => (tt, {| objects := objects st;
                    pending := [];
                    committed := (committed st ++ pending st)%list |}).

(** Modelled from the spec: [SessionManager.save], which
    services/session_manager.py (not among the sources) defines.  By the
    docstrings of [create] and [update], it adds the instance to the
    database session and commits the session when [commit] is set. *)
Definition save (instance : loc) (commit : bool) : M unit :=
  let* _ := session_add instance in
  if commit then session_commit else ret tt.

(** Modelled from the spec: the constructor of a model class, which
    base_model.py (not among the sources) defines: a new instance of the
    model, initialized from the keyword arguments. *)
Definition model_new (m : Model) (kwargs : Dict) : M loc :=
  fun st =>
    let instance := length (objects st) in
    let st' := {| objects := (objects st ++ [{| inst_class := m;
                                                 inst_attrs := ∅ |}])%list;
                  pending := pending st;
                  committed := committed st |} in
    (instance, snd (setattrs instance kwargs st')).

(** [not instance], for [None] or an instance. *)
Definition py_not (instance : option loc) : M bool :=
  fun st =>
    (match instance with
     | None => true
     | Some l => match objects st !! l with
                 | Some o => negb (model_bool (inst_class o) (inst_attrs o))
                 | None => false
                 end
     end, st).

Section ModelManager.
Context `{ORM}.

(** A manager: its [model] attribute. *)
Record ModelManager := { model : Model }.

(** [ModelManager.__init__]: the model registered under the same name
    replaces the one of the class; a [KeyError] leaves it. *)
Definition ModelManager_init (models : gmap string Model) (cls_model : Model)
  : ModelManager :=
  {| model := match models !! model_name cls_model with
              | Some m => m
              | None => cls_model
              end |}.

Definition q (self : ModelManager) : Query := model_query (model self).

Definition query (self : ModelManager) : Query := model_query (model self).

Definition create (self : ModelManager) (commit : bool) (kwargs : Dict)
  : M loc :=
  let* instance := model_new (model self) kwargs in
  let* _ := save instance commit in
  ret instance.

Definition update (self : ModelManager) (instance : loc) (commit : bool)
    (kwargs : Dict) : M loc :=
  let* _ := setattrs instance kwargs in
  let* _ := save instance commit in
  ret instance.

Definition get (self : ModelManager) (id : Value) : M (option loc) :=
  query_get (q self) id.

Definition get_by (self : ModelManager) (kwargs : Dict) : M (option loc) :=
  query_get_by (q self) kwargs.

Definition get_or_create (self : ModelManager) (commit : bool) (kwargs : Dict)
  : M (option loc * bool) :=
  let* instance := get_by self kwargs in
  let* absent := py_not instance in
  if absent
  then let* created := create self commit kwargs in ret (Some created, true)
  else ret (instance, false).

Definition find_all (self : ModelManager) : M (list loc) :=
  query_all (q self).

Definition find_by (self : ModelManager) (kwargs : Dict) : M (list loc) :=
  query_all (query_filter_by (q self) kwargs).

End ModelManager.

(** *** The attributes after a run of [setattr]s *)

(** The attribute dictionary after the loop. *)
Definition set_all (attrs : gmap string Value) (kwargs : Dict)
  : gmap string Value :=
  foldl (fun a '(attr, value) => <[attr := value]> a) attrs kwargs.

Lemma set_all_notin attrs kwargs attr :
  attr ∉ dict_keys kwargs -> set_all attrs kwargs !! attr = attrs !! attr.
Proof.
  revert attrs; induction kwargs as [|[k v] kwargs IH]; intros attrs Hn;
    simpl in *; [done|].
  apply not_elem_of_cons in Hn as [Hne Hn].
  unfold set_all in *. simpl. rewrite IH by done.
  by rewrite lookup_insert_ne.
Qed.

Lemma set_all_in attrs kwargs attr value :
  NoDup (dict_keys kwargs) -> (attr, value) ∈ kwargs ->
  set_all attrs kwargs !! attr = Some value.
Proof.
  revert attrs; induction kwargs as [|[k v] kwargs IH]; intros attrs Hd Hin;
    simpl in *.
  - by apply elem_of_nil in Hin.
  - apply NoDup_cons in Hd as [Hk Hd].
    apply elem_of_cons in Hin as [[= <- <-]|Hin].
    + change (set_all (<[attr:=value]> attrs) kwargs !! attr = Some value).
      rewrite set_all_notin by done. by rewrite lookup_insert_eq.
    + by apply IH.
Qed.

Lemma setattrs_spec instance kwargs st o :
  objects st !! instance = Some o ->
  exists st', setattrs instance kwargs st = (tt, st')
    /\ objects st' !! instance
       = Some {| inst_class := inst_class o;
                 inst_attrs := set_all (inst_attrs o) kwargs |}
    /\ (forall l, l <> instance -> objects st' !! l = objects st !! l)
    /\ length (objects st') = length (objects st)
    /\ pending st' = pending st
    /\ committed st' = committed st.
Proof.
  revert st o; induction kwargs as [|[k v] kwargs IH]; intros st o Ho; simpl.
  - exists st. destruct o. by repeat split.
  - unfold bind, setattr. simpl.
    set (st1 := {| objects := alter (set_attr k v) instance (objects st);
                   pending := pending st; committed := committed st |}).
    assert (objects st1 !! instance = Some (set_attr k v o)) as Ho1.
    { unfold st1. cbn [objects]. by rewrite list_lookup_alter_eq, Ho. }
    destruct (IH st1 _ Ho1) as (st' & -> & Hi & Hother & Hlen & Hp & Hc).
    exists st'. split; [done|]. split; [exact Hi|].
    split; [|split; [by rewrite Hlen; unfold st1; cbn [objects];
                        rewrite length_alter|done]].
    intros l Hl. rewrite (Hother l Hl). unfold st1. cbn [objects].
    by rewrite list_lookup_alter_ne.
Qed.

Section ModelManagerProperties.
Context `{ORM}.

(** [query.get(id)] and [query.filter_by(kwargs).all()] on the query of
    the manager's model, as C1 words them. *)
Definition model_query_get (m : Model) (id : Value) : M (option loc) :=
  query_get (model_query m) id.

Definition model_query_filter_by_all (m : Model) (kwargs : Dict)
  : M (list loc) :=
  query_all (query_filter_by (model_query m) kwargs).

(** C1. [get] and [find_by] return exactly what the query of the manager's
    model returns, and leave the store as the query leaves it; the model is
    the registered one of that name, or the class's own. *)
Theorem ModelManager_delegates models cls_model id kwargs st :
  let self := ModelManager_init models cls_model in
  model self = default cls_model (models !! model_name cls_model)
  /\ get self id st = model_query_get (model self) id st
  /\ find_by self kwargs st = model_query_filter_by_all (model self) kwargs st.
Proof.
  simpl. split; [|done].
  by destruct (models !! model_name cls_model).
Qed.

Lemma save_spec instance commit st :
  exists st', save instance commit st = (tt, st')
    /\ objects st' = objects st
    /\ if commit
       then pending st' = [] /\ instance ∈ committed st'
       else instance ∈ pending st' /\ committed st' = committed st.
Proof.
  unfold save, bind, session_add. simpl.
  set (p := if bool_decide (instance ∈ pending st) then pending st
            else (pending st ++ [instance])%list).
  assert (instance ∈ p) as Hp.
  { unfold p. case_bool_decide; [done|].
    apply elem_of_app; right. apply elem_of_cons; by left. }
  destruct commit; simpl; eexists; (split; [done|]); simpl; split; try done.
  split; [done|]. apply elem_of_app; by right.
Qed.

(** C4. [update] sets the attributes named in [kwargs] to the given values,
    leaves the other attributes of the instance (and every other instance)
    unchanged, saves the instance to the session, and returns the instance
    it was given. *)
Theorem update_frame self instance commit kwargs st o :
  objects st !! instance = Some o ->
  NoDup (dict_keys kwargs) ->
  exists st' o',
    update self instance commit kwargs st = (instance, st')
    /\ objects st' !! instance = Some o'
    /\ inst_class o' = inst_class o
    /\ (forall attr value,
          (attr, value) ∈ kwargs -> inst_attrs o' !! attr = Some value)
    /\ (forall attr,
          attr ∉ dict_keys kwargs ->
          inst_attrs o' !! attr = inst_attrs o !! attr)
    /\ (forall l, l <> instance -> objects st' !! l = objects st !! l)
    /\ if commit
       then pending st' = [] /\ instance ∈ committed st'
       else instance ∈ pending st' /\ committed st' = committed st.
Proof.
  intros Ho Hd.
  destruct (setattrs_spec instance kwargs st o Ho)
    as (st1 & Hst1 & Hi & Hother & _ & Hp & Hc).
  destruct (save_spec instance commit st1) as (st2 & Hst2 & Hobj & Hsaved).
  exists st2, {| inst_class := inst_class o;
                 inst_attrs := set_all (inst_attrs o) kwargs |}.
  split; [unfold update, bind; by rewrite Hst1, Hst2|].
  rewrite Hobj. split; [done|]. split; [done|].
  split; [intros; by apply set_all_in|].
  split; [intros; by apply set_all_notin|].
  split; [done|].
  destruct commit; [done|]. destruct Hsaved as [? ->]. done.
Qed.

Lemma model_new_spec m kwargs st :
  exists st', model_new m kwargs st = (length (objects st), st')
    /\ objects st' !! length (objects st)
       = Some {| inst_class := m; inst_attrs := set_all ∅ kwargs |}
    /\ (forall l, l <> length (objects st) ->
                  objects st' !! l = objects st !! l)
    /\ pending st' = pending st
    /\ committed st' = committed st.
Proof.
  unfold model_new.
  set (st0 := {| objects := (objects st ++ [{| inst_class := m;
                                                inst_attrs := ∅ |}])%list;
                 pending := pending st; committed := committed st |}).
  assert (objects st0 !! length (objects st)
          = Some {| inst_class := m; inst_attrs := ∅ |}) as Ho.
  { unfold st0. cbn [objects]. by rewrite lookup_app_r, Nat.sub_diag. }
  destruct (setattrs_spec (length (objects st)) kwargs st0 _ Ho)
    as (st' & -> & Hi & Hother & _ & Hp & Hc).
  exists st'. split; [done|]. split; [exact Hi|].
  split; [|done].
  intros l Hl. rewrite (Hother l Hl). unfold st0. cbn [objects].
  destruct (decide (l < length (objects st))) as [Hlt|Hge].
  - by rewrite lookup_app_l.
  - rewrite !lookup_ge_None_2; [done|lia|].
    rewrite length_app. simpl. lia.
Qed.

(** What [create] returns and stores. *)
Lemma create_spec self commit kwargs st :
  exists st', create self commit kwargs st = (length (objects st), st')
    /\ objects st !! length (objects st) = None
    /\ objects st' !! length (objects st)
       = Some {| inst_class := model self; inst_attrs := set_all ∅ kwargs |}
    /\ (forall l, l <> length (objects st) ->
                  objects st' !! l = objects st !! l)
    /\ if commit
       then pending st' = [] /\ length (objects st) ∈ committed st'
       else length (objects st) ∈ pending st'
            /\ committed st' = committed st.
Proof.
  destruct (model_new_spec (model self) kwargs st)
    as (st1 & Hst1 & Hi & Hother & Hp & Hc).
  destruct (save_spec (length (objects st)) commit st1)
    as (st2 & Hst2 & Hobj & Hsaved).
  exists st2. split; [unfold create, bind; by rewrite Hst1, Hst2|].
  split; [by apply lookup_ge_None_2|].
  rewrite Hobj. split; [done|]. split; [done|].
  destruct commit; [done|]. destruct Hsaved as [? ->]. done.
Qed.

(** C8. [get_or_create] returns [(instance, created)] where [created] holds
    exactly when [get_by] returned a falsy value: [None], or an instance
    whose truth value is false.  When [created] holds the instance is the
    one [create] makes, a new object of the manager's model whose
    attributes are those of [kwargs]; otherwise it is the instance that
    [get_by] found, and nothing else happens. *)
Theorem get_or_create_spec self commit kwargs st :
  let '(found, st1) := get_by self kwargs st in
  let '(instance, created, st2) := get_or_create self commit kwargs st in
  created = fst (py_not found st1)
  /\ if created
     then exists new,
            instance = Some new
            /\ create self commit kwargs st1 = (new, st2)
            /\ objects st1 !! new = None
            /\ objects st2 !! new
               = Some {| inst_class := model self;
                         inst_attrs := set_all ∅ kwargs |}
     else instance = found /\ st2 = st1 /\ is_Some found.
Proof.
  unfold get_or_create, bind.
  destruct (get_by self kwargs st) as [found st1].
  unfold py_not at 1.
  set (absent := match found with
                 | Some l => _
                 | None => true
                 end).
  assert (fst (py_not found st1) = absent) as -> by done.
  destruct absent eqn:Ha.
  - destruct (create_spec self commit kwargs st1)
      as (st2 & Hcreate & Hfresh & Hnew & _).
    rewrite Hcreate. simpl. split; [done|].
    exists (length (objects st1)). by repeat split.
  - simpl. split; [done|]. split; [done|]. split; [done|].
    destruct found; [by eexists | done].
Qed.

End ModelManagerProperties.

(** *** A reference query over the store

    The ORM itself is not part of the repository.  To run the manager on
    concrete data, this is a small implementation of the interface: a query
    selects, among the instances of the session and of the database, those
    of its model that satisfy its filters. *)

#[local] Instance Value_eq_dec : EqDecision Value.
Proof. solve_decision. Defined.

Record MemQuery := { q_model : string; q_filters : Dict }.

Definition mem_matches (qr : MemQuery) (st : Store) (l : loc) : bool :=
  match objects st !! l with
  | Some o =>
      String.eqb (model_name (inst_class o)) (q_model qr)
      && forallb (fun '(attr, value) =>
                    bool_decide (inst_attrs o !! attr = Some value))
                 (q_filters qr)
  | None => false
  end.

Definition mem_filter_by (qr : MemQuery) (kwargs : Dict) : MemQuery :=
  {| q_model := q_model qr; q_filters := (q_filters qr ++ kwargs)%list |}.

Definition mem_all (qr : MemQuery) : M (list loc) :=
  fun st =>
    (List.filter (mem_matches qr st) (committed st ++ pending st)%list, st).

Definition mem_get_by (qr : MemQuery) (kwargs : Dict) : M (option loc) :=
  let* found := mem_all (mem_filter_by qr kwargs) in
  ret (head found).

Definition mem_get (qr : MemQuery) (id : Value) : M (option loc) :=
  mem_get_by qr [("id", id)].

#[local] Instance MemORM : ORM := {|
  Query := MemQuery;
  model_query := fun m => {| q_model := model_name m; q_filters := [] |};
  query_get := mem_get;
  query_get_by := mem_get_by;
  query_filter_by := mem_filter_by;
  query_all := mem_all
|}.

(** What the reference [get] finds is an instance of the query's model
    whose [id] is the one asked for; the store is left alone. *)
Lemma mem_get_found qr id st l st' :
  q_filters qr = [] ->
  mem_get qr id st = (Some l, st') ->
  st' = st
  /\ exists o, objects st !! l = Some o
              /\ model_name (inst_class o) = q_model qr
              /\ inst_attrs o !! "id" = Some id.
Proof.
  intros Hf. unfold mem_get, mem_get_by, bind, mem_all, ret. simpl.
  intros [= Hhead <-]. split; [done|].
  apply head_Some_elem_of, list_elem_of_In, filter_In in Hhead as [_ Hm].
  unfold mem_matches in Hm. simpl in Hm. rewrite Hf in Hm. simpl in Hm.
  destruct (objects st !! l) as [o|]; [|done].
  apply andb_prop in Hm as [Hname Hid]. rewrite andb_true_r in Hid.
  exists o. split; [done|]. split; [by apply String.eqb_eq|].
  by apply bool_decide_eq_true in Hid.
Qed.

(** Two models: [User], and [Flag] whose instances are true when their
    attribute [on] is. *)
Definition User : Model :=
  {| model_name := "User"; model_bool := fun _ => true |}.

Definition Flag : Model :=
  {| model_name := "Flag";
     model_bool := fun attrs => bool_decide (attrs !! "on" = Some (VBool true)) |}.

Definition example_store : Store :=
  {| objects :=
       [{| inst_class := User;
           inst_attrs := <["id" := VInt 1]> (<["name" := VStr "ada"]> ∅) |};
        {| inst_class := Flag;
           inst_attrs := <["id" := VInt 1]> (<["on" := VBool false]> ∅) |}];
     pending := [];
     committed := [0; 1] |}.

Definition users : ModelManager := ModelManager_init ∅ User.
Definition flags : ModelManager := ModelManager_init ∅ Flag.

Example get_found : get users (VInt 1) example_store = (Some 0, example_store).
Proof. reflexivity. Qed.

Example get_not_found : get users (VInt 2) example_store = (None, example_store).
Proof. reflexivity. Qed.

Example find_by_name :
  fst (find_by users [("name", VStr "ada")] example_store) = [0].
Proof. reflexivity. Qed.

(** The flag that exists is off, hence falsy: [get_or_create] treats it as
    absent and creates another. *)
Example get_or_create_falsy :
  fst (get_by flags [("id", VInt 1)] example_store) = Some 1
  /\ fst (get_or_create flags false [("id", VInt 1)] example_store)
     = (Some 2, true).
Proof. by split. Qed.

Example get_or_create_existing :
  fst (get_or_create users false [("id", VInt 1)] example_store)
  = (Some 0, false).
Proof. reflexivity. Qed.

Lemma update_frame_witness :
  exists st' o',
    update users 0 true [("name", VStr "lovelace"); ("age", VInt 36)]
      example_store = (0, st')
    /\ objects st' !! 0 = Some o'
    /\ inst_attrs o' !! "name" = Some (VStr "lovelace")
    /\ inst_attrs o' !! "age" = Some (VInt 36)
    /\ inst_attrs o' !! "id" = Some (VInt 1)
    /\ objects st' !! 1 = objects example_store !! 1
    /\ 0 ∈ committed st'.
Proof.
  destruct (update_frame users 0 true
              [("name", VStr "lovelace"); ("age", VInt 36)] example_store
              {| inst_class := User;
                 inst_attrs := <["id" := VInt 1]> (<["name" := VStr "ada"]> ∅) |})
    as (st' & o' & Hupdate & Ho' & _ & Hset & Hkept & Hother & _ & Hsaved).
  - reflexivity.
  - apply (bool_decide_unpack _). vm_compute. exact I.
  - exists st', o'. split; [exact Hupdate|]. split; [exact Ho'|].
    split; [apply Hset; apply elem_of_cons; by left|].
    split; [apply Hset; apply elem_of_cons; right; apply elem_of_cons; by left|].
    split; [rewrite Hkept; [reflexivity|]|].
    + apply (bool_decide_unpack _). vm_compute. exact I.
    + split; [by apply Hother | exact Hsaved].
Defined.

End SQLAlchemy.

(** ** bundles/sqlalchemy/commands.py *)

Module Commands.

Section Commands.

(** The database and what the command calls on it, from Flask-SQLAlchemy,
    Flask-Migrate and alembic: [db_ext.drop_all()],
    [db_ext.engine.execute(sql)], [migrate.get_config(directory)] and
    [alembic.upgrade(config, revision)]. *)
Variable DB : Type.
Variable Config : Type.
Variable db_ext_drop_all : DB -> DB.
Variable engine_execute : string -> DB -> DB.
Variable migrate_get_config : option string -> Config.
Variable alembic_upgrade : Config -> string -> DB -> DB.

(** What a command does, in the order it does it. *)
Inductive Event :=
  | Echo (message : string)
  | DropAll
  | Execute (sql : string)
  | Upgrade (config : Config) (revision : string).

Record World := { database : DB; trace : list Event }.

(** A command either finishes or raises; [exit(message)] raises
    [SystemExit]. *)
Definition Cmd (A : Type) : Type := World -> (Exception + A) * World.

Definition ret {A} (a : A) : Cmd A := fun w => (inr a, w).

Definition bind {A B} (c : Cmd A) (k : A -> Cmd B) : Cmd B :=
  fun w =>
    match c w with
    | (inr a, w') => k a w'
    | (inl e, w') => (inl e, w')
    end.

Declare Scope cmd_scope.
Notation "c1 ;; c2" := (bind c1 (fun _ => c2))
  (at level 100, c2 at level 200, right associativity) : cmd_scope.
Local Open Scope cmd_scope.

Definition exit (message : string) : Cmd unit :=
  fun w => (inl (SystemExit message), w).

(** One call on the outside world: it is recorded, and the database
    changes by [f]. *)
Definition perform (e : Event) (f : DB -> DB) : Cmd unit :=
  fun w => (inr tt, {| database := f (database w);
                       trace := (trace w ++ [e])%list |}).

Definition click_echo (message : string) : Cmd unit :=
  perform (Echo message) (fun d => d).

Definition when (b : bool) (c : Cmd unit) : Cmd unit :=
  if b then c else ret tt.

Definition drop_all : Cmd unit :=
  perform DropAll db_ext_drop_all ;;
  perform (Execute "DROP TABLE IF EXISTS alembic_version;")
          (engine_execute "DROP TABLE IF EXISTS alembic_version;").

Definition drop_command (drop : bool) : Cmd unit :=
  when (negb drop) (exit "Cancelled.") ;;
  click_echo "Dropping DB tables." ;;
  drop_all ;;
  click_echo "Done.".

Definition reset_command (reset : bool) : Cmd unit :=
  when (negb reset) (exit "Cancelled.") ;;
  click_echo "Dropping DB tables." ;;
  drop_all ;;
  click_echo "Running DB migrations." ;;
  (let config := migrate_get_config None in
   perform (Upgrade config "head") (alembic_upgrade config "head")) ;;
  click_echo "Done.".

(** Nothing that follows an [exit] runs. *)
Lemma exit_stops {A} message (c : Cmd A) w :
  (exit message ;; c) w = (inl (SystemExit message), w).
Proof. reflexivity. Qed.

(** The events that act on the database. *)
Definition is_database_step (e : Event) : bool :=
  match e with Echo _ => false | _ => true end.

Definition database_steps (t : list Event) : list Event :=
  List.filter is_database_step t.

(** C2. Without confirmation, [drop] and [reset] exit with ['Cancelled.']
    and the world is as before: nothing was printed, dropped, executed or
    migrated. *)
Theorem commands_cancelled w :
  drop_command false w = (inl (SystemExit "Cancelled."), w)
  /\ reset_command false w = (inl (SystemExit "Cancelled."), w).
Proof.
  unfold drop_command, reset_command, when. simpl negb. cbv iota.
  split; apply exit_stops.
Qed.

(** C3. A confirmed [reset] finishes, and its steps on the database are, in
    this order and no others: drop all tables, execute
    ['DROP TABLE IF EXISTS alembic_version;'], upgrade to ['head']; the
    database is the result of the three in that order. *)
Theorem reset_command_steps w :
  let sql := "DROP TABLE IF EXISTS alembic_version;" in
  let config := migrate_get_config None in
  exists t,
    reset_command true w
    = (inr tt,
       {| database := alembic_upgrade config "head"
                        (engine_execute sql (db_ext_drop_all (database w)));
          trace := (trace w ++ t)%list |})
    /\ t = [Echo "Dropping DB tables."; DropAll; Execute sql;
            Echo "Running DB migrations."; Upgrade config "head";
            Echo "Done."]
    /\ database_steps t = [DropAll; Execute sql; Upgrade config "head"].
Proof.
  simpl. eexists. split; [|split; [reflexivity|reflexivity]].
  unfold reset_command, bind, when, click_echo, drop_all, bind, perform; simpl.
  by rewrite <- !app_assoc.
Qed.

End Commands.

End Commands.

(** ** hooks/__init__.py *)

Module Hooks.

(** The hooks the package exports. *)
Inductive Hook :=
  | ConfigureAppHook
  | InitExtensionsHook
  | InjectServicesIntoExtensionsHook
  | RegisterCommandsHook
  | RegisterExtensionsHook
  | RegisterServicesHook
  | RunHooksHook.

Section Pipeline.

(** The application being built, and what running one hook does to it; a
    hook may raise.  The hooks' own modules are not among the sources. *)
Variable App : Type.
Variable Error : Type.
Variable run_hook : Hook -> App -> Error + App.

(** Modelled from the spec: the bootstrap loop that invokes the hooks,
    which is not among the sources.  The spec has it as ``an ordered list
    of lifecycle callbacks invoked during application bootstrap'', ``a
    fixed-order callback pipeline, not a scheduler'', with ``no
    failure-recovery semantics beyond linear sequencing''.  The result is
    the hooks invoked, in the order of invocation, and the application or
    the error that stopped the pipeline. *)
Fixpoint run_hooks (hooks : list Hook) (app : App) : list Hook * (Error + App) :=
  match hooks with
  | [] => ([], inr app)
  | hook :: hooks' =>
      match run_hook hook app with
      | inr app' =>
          let '(invoked, result) := run_hooks hooks' app' in
          (hook :: invoked, result)
      | inl e => ([hook], inl e)
      end
  end.

(** The application after the hooks [hooks], when none raises. *)
Fixpoint app_after (hooks : list Hook) (app : App) : option App :=
  match hooks with
  | [] => Some app
  | hook :: hooks' =>
      match run_hook hook app with
      | inr app' => app_after hooks' app'
      | inl _ => None
      end
  end.

(** C7. The hooks are invoked as a linear pipeline in the order of the
    list: the hooks invoked are an initial segment of the list, each at its
    own position; when the pipeline finishes every hook has run, once, in
    order; when a hook raises, the pipeline stops with that error and the
    hooks after it are not run. *)
Theorem run_hooks_linear hooks app :
  let '(invoked, result) := run_hooks hooks app in
  (forall i hook, invoked !! i = Some hook -> hooks !! i = Some hook)
  /\ match result with
     | inr app' => invoked = hooks /\ app_after hooks app = Some app'
     | inl e =>
         exists before hook after app',
           hooks = (before ++ hook :: after)%list
           /\ invoked = (before ++ [hook])%list
           /\ app_after before app = Some app'
           /\ run_hook hook app' = inl e
     end.
Proof.
  revert app; induction hooks as [|hook hooks IH]; intros app; simpl.
  - split; [by intros i hook Hi | done].
  - destruct (run_hook hook app) as [e|app1] eqn:Hrun.
    + split.
      * intros [|i] h Hi; simpl in *; [done|]. by destruct i.
      * by exists [], hook, hooks, app.
    + specialize (IH app1). destruct (run_hooks hooks app1) as [invoked result].
      destruct IH as [Hpos Hres]. split.
      * intros [|i] h Hi; simpl in *; [done | by apply Hpos].
      * destruct result as [e|app'].
        -- destruct Hres as (before & h & after & app' & -> & -> & Hb & He).
           exists (hook :: before), h, after, app'. simpl. by rewrite Hrun.
        -- by destruct Hres as [-> Ha].
Qed.

End Pipeline.

(** The bootstrap of an application that counts the hooks it has run. *)
Example run_hooks_all :
  run_hooks nat unit (fun _ n => inr (S n))
    [ConfigureAppHook; InitExtensionsHook; RegisterExtensionsHook;
     InjectServicesIntoExtensionsHook; RegisterCommandsHook;
     RegisterServicesHook; RunHooksHook] 0
  = ([ConfigureAppHook; InitExtensionsHook; RegisterExtensionsHook;
      InjectServicesIntoExtensionsHook; RegisterCommandsHook;
      RegisterServicesHook; RunHooksHook], inr 7).
Proof. reflexivity. Qed.

(** A hook that raises stops the pipeline. *)
Example run_hooks_stops :
  run_hooks nat string
    (fun hook n => match hook with
                   | RegisterExtensionsHook => inl "no such extension"
                   | _ => inr (S n)
                   end)
    [ConfigureAppHook; InitExtensionsHook; RegisterExtensionsHook;
     InjectServicesIntoExtensionsHook; RegisterCommandsHook] 0
  = ([ConfigureAppHook; InitExtensionsHook; RegisterExtensionsHook],
     inl "no such extension").
Proof. reflexivity. Qed.

End Hooks.

(** * Further properties of the code *)

(** ** utils.py: what format_docstring keeps and drops *)

Module Docstrings.
Import Utils.

(** The characters of a string that are not whitespace, in order. *)
Fixpoint non_spaces (s : string) : string :=
  match s with
  | EmptyString => EmptyString
  | String c s' => if isspace c then non_spaces s' else String c (non_spaces s')
  end.

Lemma non_spaces_re_sub b s : non_spaces (re_sub_spaces b s) = non_spaces s.
Proof.
  revert b; induction s as [|c s IH]; intros b; simpl; [done|].
  destruct (isspace c) eqn:Hc.
  - destruct b; simpl; by rewrite ?isspace_space, IH.
  - simpl. by rewrite Hc, IH.
Qed.

Lemma non_spaces_lstrip s : non_spaces (lstrip s) = non_spaces s.
Proof.
  induction s as [|c s IH]; simpl; [done|].
  destruct (isspace c) eqn:Hc; [done|]. simpl. by rewrite Hc.
Qed.

Lemma non_spaces_rstrip s : non_spaces (rstrip s) = non_spaces s.
Proof.
  induction s as [|c s IH]; simpl; [done|].
  destruct (rstrip s) as [|c' r] eqn:Hr; simpl in *;
    destruct (isspace c) eqn:Hc; simpl; by rewrite ?Hc, <- ?IH.
Qed.

(** X1. [format_docstring] only touches whitespace: the characters that are
    not whitespace are those of the argument, in the same order. *)
Theorem format_docstring_keeps_text s :
  non_spaces (format_docstring (Some s)) = non_spaces s.
Proof.
  unfold format_docstring. destruct s as [|c s]; [done|].
  cbn [str_bool negb]. unfold strip.
  by rewrite non_spaces_lstrip, non_spaces_rstrip, non_spaces_re_sub.
Qed.

Lemma non_spaces_empty s :
  non_spaces s = EmptyString -> starts_space s = false -> s = EmptyString.
Proof.
  destruct s as [|c s]; simpl; [done|]. intros H Hc. by rewrite Hc in H.
Qed.

(** X2. The result is empty exactly when there is no text: the argument is
    [None], or it has no character other than whitespace (the empty string
    included). *)
Theorem format_docstring_empty d :
  format_docstring d = EmptyString
  <-> d = None \/ exists s, d = Some s /\ non_spaces s = EmptyString.
Proof.
  split.
  - destruct d as [s|]; [|by left]. intros Hf. right. exists s. split; [done|].
    by rewrite <- format_docstring_keeps_text, Hf.
  - intros [->|(s & -> & Hs)]; [done|].
    apply non_spaces_empty.
    + by rewrite format_docstring_keeps_text.
    + apply format_docstring_shape.
Qed.

(** X3. The strings that [format_docstring] returns unchanged are exactly
    those whose only whitespace is single spaces between other characters:
    no whitespace first or last, every whitespace character a space, none
    followed by another. *)
Theorem format_docstring_fixed_points s :
  format_docstring (Some s) = s
  <-> collapsed s = true /\ starts_space s = false /\ ends_space s = false.
Proof.
  split.
  - intros <-. apply format_docstring_shape.
  - intros (Hc & Hs & He). unfold format_docstring.
    destruct s as [|c s]; [done|]. cbn [str_bool negb].
    rewrite collapsed_fixed; [by apply strip_fixed | done | done].
Qed.

Lemma length_re_sub b s :
  String.length (re_sub_spaces b s) <= String.length s.
Proof.
  revert b; induction s as [|c s IH]; intros b; simpl; [done|].
  destruct (isspace c); [destruct b|]; simpl;
    [specialize (IH true)|specialize (IH true)|specialize (IH false)]; lia.
Qed.

Lemma length_lstrip s : String.length (lstrip s) <= String.length s.
Proof.
  induction s as [|c s IH]; simpl; [done|].
  destruct (isspace c); simpl; lia.
Qed.

Lemma length_rstrip s : String.length (rstrip s) <= String.length s.
Proof.
  induction s as [|c s IH]; simpl; [done|].
  destruct (rstrip s); [destruct (isspace c)|]; simpl in *; lia.
Qed.

(** X4. [format_docstring] never makes a string longer. *)
Theorem format_docstring_length s :
  String.length (format_docstring (Some s)) <= String.length s.
Proof.
  unfold format_docstring. destruct s as [|c s]; [done|].
  cbn [str_bool negb]. unfold strip.
  etrans; [apply length_lstrip|]. etrans; [apply length_rstrip|].
  apply length_re_sub.
Qed.

End Docstrings.

(** ** utils.py: class attributes and config properties *)

Module ClassAttributes.
Import Utils.

Lemma deep_getattr_bases_app bases1 bases2 name :
  deep_getattr_bases (bases1 ++ bases2)%list name
  = match deep_getattr_bases bases1 name with
    | Some value => Some value
    | None => deep_getattr_bases bases2 name
    end.
Proof.
  induction bases1 as [|b bases1 IH]; simpl; [done|].
  by destruct (class_getattr b name).
Qed.

(** X5. Bases are searched left to right and the search can be split
    anywhere: with the bases [bases1 ++ bases2], the result is what the class
    dictionary and [bases1] give without a default, and only when that raises
    what [bases2] and the default give on their own. *)
Theorem deep_getattr_split clsdict bases1 bases2 name default :
  deep_getattr clsdict (bases1 ++ bases2)%list name default
  = match deep_getattr clsdict bases1 name None with
    | inr value => inr value
    | inl _ => deep_getattr [] bases2 name default
    end.
Proof.
  unfold deep_getattr. rewrite deep_getattr_bases_app. simpl.
  destruct (dict_get clsdict name); [done|].
  by destruct (deep_getattr_bases bases1 name).
Qed.

(** X6. Keys injected by one class construction are final: a descriptor
    that a class dictionary binds has a truthy key once that class is
    constructed, and no later construction, of whatever class, changes
    it. *)
Theorem ConfigPropertyMeta_keys_stable `{StrMethods}
    class_name1 bases1 clsdict1 class_name2 bases2 clsdict2 h h1 h2 l n d1 :
  ConfigPropertyMeta_init class_name1 bases1 clsdict1 h = inr h1 ->
  ConfigPropertyMeta_init class_name2 bases2 clsdict2 h1 = inr h2 ->
  first_name clsdict1 l = Some n ->
  h1 !! l = Some d1 ->
  truthy (key d1) = true /\ h2 !! l = Some d1.
Proof.
  unfold ConfigPropertyMeta_init.
  destruct (default _ _) as [| | |raw1| | |]; try done. intros [= <-].
  destruct (default _ _) as [| | |raw2| | |]; try done. intros [= <-].
  intros Hn Hl1.
  assert (is_Some (h !! l)) as [d Hl].
  { apply lookup_lt_is_Some. apply lookup_lt_Some in Hl1.
    by rewrite inject_keys_length in Hl1. }
  rewrite (inject_keys_lookup _ _ _ _ _ Hl), Hn in Hl1.
  assert (truthy (key d1) = true) as Ht.
  { destruct (truthy (key d)) eqn:Hk; injection Hl1 as <-; [done|].
    cbn [key]. apply injected_key_truthy. }
  split; [done|].
  rewrite (inject_keys_lookup _ _ _ l d1); [by rewrite Ht|].
  by rewrite (inject_keys_lookup _ _ _ _ _ Hl), Hn.
Qed.

Lemma ConfigPropertyMeta_keys_stable_witness :
  truthy (key {| key := VStr "FIRST_NAME" |}) = true
  /\ [{| key := VStr "FIRST_NAME" |}] !! 0 = Some {| key := VStr "FIRST_NAME" |}.
Proof.
  apply (@ConfigPropertyMeta_keys_stable ascii_str_methods
           "First" [] [("name", VConfigProperty 0)]
           "Second" [] [("other", VConfigProperty 0)]
           [{| key := VNone |}] [{| key := VStr "FIRST_NAME" |}]
           [{| key := VStr "FIRST_NAME" |}] 0 "name"
           {| key := VStr "FIRST_NAME" |});
    reflexivity.
Defined.

(** [current_app.config.get(key)]: the keys of the config are [str]s, so
    any other key is absent. *)
Definition config_get (config : gmap string Value) (k : Value) : Value :=
  match k with
  | VStr s => default VNone (config !! s)
  | _ => VNone
  end.

(** Flask's error on [current_app] outside an application context. *)
Inductive ContextError := RuntimeError.

(** [ConfigProperty.__get__(self, instance, cls)].  [current_app] is the
    config of the current application, or [None] outside an application
    context, where using it raises. *)
Definition ConfigProperty_get (self : ConfigProperty)
    (current_app : option (gmap string Value)) : ContextError + Value :=
  match current_app with
  | Some config => inr (config_get config (key self))
  | None => inl RuntimeError
  end.

(** X7. After class construction, reading a config property whose key was
    left unset gives, inside an application context, the value that the
    config holds under [upper] of [prefix_name], and [None] when the config
    has no such key; outside an application context it raises. *)
Theorem ConfigProperty_reads_config `{StrMethods}
    class_name bases clsdict h l d n raw :
  default (VStr class_name) (dict_get clsdict "__config_prefix__") = VStr raw ->
  h !! l = Some d ->
  truthy (key d) = false ->
  first_name clsdict l = Some n ->
  exists h' d',
    ConfigPropertyMeta_init class_name bases clsdict h = inr h'
    /\ h' !! l = Some d'
    /\ (forall config,
          ConfigProperty_get d' (Some config)
          = inr (default VNone
                   (config !! upper (rstrip_chars "_" raw ++ "_" ++ n))))
    /\ ConfigProperty_get d' None = inl RuntimeError.
Proof.
  intros Hraw Hl Hk Hn. unfold ConfigPropertyMeta_init. rewrite Hraw.
  eexists _, _. split; [done|].
  split; [by rewrite (inject_keys_lookup _ _ _ _ _ Hl), Hk, Hn|].
  by split.
Qed.

Lemma ConfigProperty_reads_config_witness :
  exists h' d',
    @ConfigPropertyMeta_init ascii_str_methods "MyExtension" []
      [("__config_prefix__", VStr "MY_EXTENSION");
       ("foobar", VConfigProperty 0)] [{| key := VNone |}] = inr h'
    /\ h' !! 0 = Some d'
    /\ (forall config,
          ConfigProperty_get d' (Some config)
          = inr (default VNone
                   (config !! upper_ascii (rstrip_chars "_" "MY_EXTENSION"
                                           ++ "_" ++ "foobar"))))
    /\ ConfigProperty_get d' None = inl RuntimeError.
Proof.
  apply (@ConfigProperty_reads_config ascii_str_methods "MyExtension" []
           [("__config_prefix__", VStr "MY_EXTENSION");
            ("foobar", VConfigProperty 0)] [{| key := VNone |}] 0
           {| key := VNone |} "foobar" "MY_EXTENSION");
    reflexivity.
Defined.

End ClassAttributes.

(** ** utils.py: AttrDict and LazyAttrDict *)

Module AttrDicts.

Inductive LookupError := KeyError (key : string).

(** [self[key]] on a [dict] with [str] keys. *)
Definition getitem (self : gmap string Value) (key : string)
  : LookupError + Value :=
  match self !! key with
  | Some value => inr value
  | None => inl (KeyError key)
  end.

Section AttrDict.

(** What the default attribute lookup finds on an instance: the attributes
    of the class itself, of [dict] ([keys], [items], [get], ...) and of
    [object].  The instance has no attribute of its own, since
    [__setattr__] stores every assignment as an item. *)
Variable class_attrs : Dict.

(** [AttrDict.__getattr__(self, key)] *)
Definition AttrDict_getattr (self : gmap string Value) (key : string)
  : LookupError + Value :=
  getitem self key.

(** [AttrDict.__setattr__(self, key, value)] *)
Definition AttrDict_setattr (self : gmap string Value) (key : string)
    (value : Value) : gmap string Value :=
  <[key := value]> self.

(** The expression [self.key]: [__getattr__] is the fallback of the default
    lookup. *)
Definition attribute (self : gmap string Value) (key : string)
  : LookupError + Value :=
  match dict_get class_attrs key with
  | Some v => inr v
  | None => AttrDict_getattr self key
  end.

(** What attribute access on a [LazyAttrDict] gives: an attribute of the
    class, or the proxy [LocalProxy(lambda: self[key])]. *)
Inductive LazyValue :=
  | Found (v : Value)
  | LocalProxy (key : string).

(** [LazyAttrDict.__getattr__(self, key)] *)
Definition LazyAttrDict_getattr (self : gmap string Value) (key : string)
  : LazyValue :=
  LocalProxy key.

Definition lazy_attribute (self : gmap string Value) (key : string)
  : LazyValue :=
  match dict_get class_attrs key with
  | Some v => Found v
  | None => LazyAttrDict_getattr self key
  end.

(** Using a proxy calls its function, on the dict as it is at that
    moment. *)
Definition current_object (p : LazyValue) (self : gmap string Value)
  : LookupError + Value :=
  match p with
  | Found v => inr v
  | LocalProxy key => getitem self key
  end.

(** X8. On an [AttrDict], an attribute that is not one of the class reads
    back the value last assigned to it, assigning to it changes no other
    attribute, and reading one that was never assigned raises [KeyError]
    (not [AttributeError]). *)
Theorem AttrDict_set_get self key value :
  dict_get class_attrs key = None ->
  attribute (AttrDict_setattr self key value) key = inr value
  /\ (forall key', key' <> key ->
        attribute (AttrDict_setattr self key value) key' = attribute self key')
  /\ (self !! key = None -> attribute self key = inl (KeyError key)).
Proof.
  intros Hc. unfold attribute, AttrDict_getattr, AttrDict_setattr, getitem.
  rewrite Hc, lookup_insert_eq. split; [done|]. split.
  - intros key' Hne. by rewrite lookup_insert_ne.
  - by intros ->.
Qed.

(** X9. Assigning to a name that the class defines, such as [items],
    stores the item all the same, but the attribute still reads as the
    class's: the assignment cannot be read back through the attribute. *)
Theorem AttrDict_shadowed self key value m :
  dict_get class_attrs key = Some m ->
  attribute (AttrDict_setattr self key value) key = inr m
  /\ getitem (AttrDict_setattr self key value) key = inr value.
Proof.
  intros Hc. unfold attribute, AttrDict_setattr, getitem.
  by rewrite Hc, lookup_insert_eq.
Qed.

(** X10. Attribute access on a [LazyAttrDict] never raises, whether the key
    is there or not; the proxy it returns looks the key up when it is used:
    it gives the value assigned in the meantime, and [KeyError] when there
    still is none. *)
Theorem LazyAttrDict_is_lazy self key :
  dict_get class_attrs key = None ->
  lazy_attribute self key = LocalProxy key
  /\ (forall later value,
        current_object (lazy_attribute self key)
          (AttrDict_setattr later key value) = inr value)
  /\ (forall later, later !! key = None ->
        current_object (lazy_attribute self key) later = inl (KeyError key)).
Proof.
  intros Hc. unfold lazy_attribute, LazyAttrDict_getattr. rewrite Hc.
  split; [done|]. unfold current_object, getitem, AttrDict_setattr. split.
  - intros later value. by rewrite lookup_insert_eq.
  - by intros later ->.
Qed.

End AttrDict.

(** A few of the methods of [dict]. *)
Definition some_dict_attrs : Dict :=
  [("keys", VFunc "dict.keys"); ("items", VFunc "dict.items");
   ("get", VFunc "dict.get")].

Lemma AttrDict_set_get_witness :
  attribute some_dict_attrs (AttrDict_setattr ∅ "DEBUG" (VBool true)) "DEBUG"
  = inr (VBool true).
Proof.
  apply (AttrDict_set_get some_dict_attrs ∅ "DEBUG" (VBool true)).
  reflexivity.
Defined.

Lemma AttrDict_shadowed_witness :
  attribute some_dict_attrs (AttrDict_setattr ∅ "items" (VInt 3)) "items"
  = inr (VFunc "dict.items")
  /\ getitem (AttrDict_setattr ∅ "items" (VInt 3)) "items" = inr (VInt 3).
Proof.
  apply (AttrDict_shadowed some_dict_attrs ∅ "items" (VInt 3)).
  reflexivity.
Defined.

Lemma LazyAttrDict_is_lazy_witness :
  lazy_attribute some_dict_attrs ∅ "db" = LocalProxy "db".
Proof.
  apply (LazyAttrDict_is_lazy some_dict_attrs ∅ "db").
  reflexivity.
Defined.

End AttrDicts.

(** ** utils.py: get_boolean_env and safe_import_module *)

Module Environment.
Import Utils.

(** [s in {...}] for a set of strings. *)
Definition str_in (s : string) (set : list string) : bool :=
  existsb (String.eqb s) set.

(** [get_boolean_env(name, default)], on the environment [os.environ]. *)
Definition get_boolean_env `{StrMethods} (environ : gmap string string)
    (name : string) (default : Value) : bool :=
  let default := if truthy default then "true" else "false" in
  let value := match environ !! name with
               | Some v => v
               | None => default
               end in
  str_in (lower value) ["true"; "yes"; "y"; "1"].

(** X11. For a variable that is not set, [get_boolean_env] is the truth
    value of the default. *)
Theorem get_boolean_env_unset `{StrMethods} environ name default :
  environ !! name = None ->
  get_boolean_env environ name default = truthy default.
Proof.
  intros Hn. unfold get_boolean_env. rewrite Hn.
  destruct (truthy default); by rewrite lower_is_ascii.
Qed.

Lemma get_boolean_env_unset_witness :
  @get_boolean_env ascii_str_methods {["DEBUG" := "no"]} "TESTING" (VInt 1)
  = truthy (VInt 1).
Proof.
  apply (@get_boolean_env_unset ascii_str_methods
           {["DEBUG" := "no"]} "TESTING" (VInt 1)).
  reflexivity.
Defined.

Lemma lower_upper_char c : ascii_lower (ascii_upper c) = ascii_lower c.
Proof. by destruct c as [[] [] [] [] [] [] [] []]. Qed.

Lemma is_ascii_upper_char c :
  (N_of_ascii (ascii_upper c) <? 128)%N = (N_of_ascii c <? 128)%N.
Proof. by destruct c as [[] [] [] [] [] [] [] []]. Qed.

Lemma lower_upper_ascii s : lower_ascii (upper_ascii s) = lower_ascii s.
Proof.
  induction s as [|c s IH]; simpl; [done|]. by rewrite lower_upper_char, IH.
Qed.

Lemma is_ascii_upper s : is_ascii (upper_ascii s) = is_ascii s.
Proof.
  induction s as [|c s IH]; simpl; [done|]. by rewrite is_ascii_upper_char, IH.
Qed.

(** X12. For a variable that is set, the default plays no part and the
    empty value is false; for a value of ASCII characters, the case of its
    letters does not matter. *)
Theorem get_boolean_env_set `{StrMethods} environ name value default :
  (forall default',
     get_boolean_env (<[name := value]> environ) name default
     = get_boolean_env (<[name := value]> environ) name default')
  /\ get_boolean_env (<[name := EmptyString]> environ) name default = false
  /\ (is_ascii value = true ->
      get_boolean_env (<[name := upper value]> environ) name default
      = get_boolean_env (<[name := value]> environ) name default).
Proof.
  unfold get_boolean_env. rewrite !lookup_insert_eq.
  split; [done|]. split; [by rewrite lower_is_ascii|].
  intros Ha. rewrite (upper_is_ascii _ Ha).
  rewrite !lower_is_ascii by (by rewrite ?is_ascii_upper).
  by rewrite lower_upper_ascii.
Qed.

(** [needle in hay], for strings. *)
Fixpoint starts_with (needle hay : string) : bool :=
  match needle, hay with
  | EmptyString, _ => true
  | String a needle', String b hay' => Ascii.eqb a b && starts_with needle' hay'
  | String _ _, EmptyString => false
  end.

Fixpoint str_contains (needle hay : string) : bool :=
  starts_with needle hay
  || match hay with
     | EmptyString => false
     | String _ hay' => str_contains needle hay'
     end.

Lemma starts_with_spec needle hay :
  starts_with needle hay = true <-> exists post, hay = needle ++ post.
Proof.
  revert hay; induction needle as [|a needle IH]; intros hay; simpl.
  - split; [intros _; by exists hay | done].
  - destruct hay as [|b hay].
    + split; [done | by intros [post ?]].
    + rewrite andb_true_iff, IH. split.
      * intros [Hab [post ->]]. apply Ascii.eqb_eq in Hab as ->. by exists post.
      * intros [post Hp]. rewrite str_app_cons in Hp. injection Hp as -> ->.
        split; [apply Ascii.eqb_refl | by exists post].
Qed.

Lemma str_contains_spec needle hay :
  str_contains needle hay = true
  <-> exists pre post, hay = pre ++ needle ++ post.
Proof.
  induction hay as [|b hay IH].
  - simpl. rewrite orb_false_r, starts_with_spec. split.
    + intros [post ->]. by exists EmptyString, post.
    + intros ([|c pre] & post & Hp); [by exists post | done].
  - cbn [str_contains]. rewrite orb_true_iff, starts_with_spec, IH. split.
    + intros [[post ->]|(pre & post & ->)].
      * by exists EmptyString, post.
      * by exists (String b pre), post.
    + intros ([|c pre] & post & Hp).
      * left. by exists post.
      * right. rewrite str_app_cons in Hp. injection Hp as -> ->.
        by exists pre, post.
Qed.

Section ImportModule.

(** [importlib.import_module]: the module, or the message [str(e)] of the
    [ImportError] it raises. *)
Variable PyModule : Type.
Variable import_module : string -> string + PyModule.

(** [safe_import_module(module_name)]: the module, [None], or the
    [ImportError] raised again. *)
Definition safe_import_module (module_name : string)
  : string + option PyModule :=
  match import_module module_name with
  | inr m => inr (Some m)
  | inl e =>
      if negb (str_contains module_name e) then inl e else inr None
  end.

(** X13. [safe_import_module] raises exactly when the import raised an
    [ImportError] whose message does not contain the module name, and then
    it raises that error; an error whose message contains the name
    anywhere, also inside a longer name, is swallowed and the result is
    [None]. *)
Theorem safe_import_module_raises module_name :
  (forall e,
     safe_import_module module_name = inl e
     <-> import_module module_name = inl e
         /\ ~ exists pre post, e = pre ++ module_name ++ post)
  /\ (forall pre post,
        import_module module_name = inl (pre ++ module_name ++ post) ->
        safe_import_module module_name = inr None).
Proof.
  unfold safe_import_module. split.
  - intros e. destruct (import_module module_name) as [e'|m].
    + destruct (str_contains module_name e') eqn:Hc; simpl.
      * apply str_contains_spec in Hc. split; [done|].
        intros [[= ->] Hn]. by destruct Hn.
      * split.
        -- intros [= ->]. split; [done|].
           rewrite <- str_contains_spec. by rewrite Hc.
        -- by intros [[= ->] _].
    + split; [done | by intros [? _]].
  - intros pre post ->.
    assert (str_contains module_name (pre ++ module_name ++ post) = true)
      as -> by (apply str_contains_spec; eauto).
    done.
Qed.

End ImportModule.

(** The missing module [chartsy] makes the import of [charts] fail, and the
    error is swallowed, since its message contains [charts]. *)
Example safe_import_module_longer_name :
  safe_import_module unit (fun _ => inl "No module named 'chartsy'") "charts"
  = inr None.
Proof. reflexivity. Qed.

Example safe_import_module_other_module :
  safe_import_module unit (fun _ => inl "No module named 'yaml'") "charts"
  = inl "No module named 'yaml'".
Proof. reflexivity. Qed.

End Environment.

(** ** model_manager.py: create, and updates in sequence *)

Module ModelManagerFacts.
Import SQLAlchemy.

Section Facts.
Context `{ORM}.

(** The attributes after the loop of [setattr]s, for a [dict] of keyword
    arguments. *)
Lemma set_all_lookup attrs kwargs attr :
  NoDup (dict_keys kwargs) ->
  set_all attrs kwargs !! attr
  = match dict_get kwargs attr with
    | Some value => Some value
    | None => attrs !! attr
    end.
Proof.
  intros Hd. destruct (dict_get kwargs attr) as [value|] eqn:Hg.
  - apply set_all_in; [done | by apply dict_get_Some].
  - apply set_all_notin. by apply dict_get_None.
Qed.

Lemma update_objects self instance commit kwargs st o :
  objects st !! instance = Some o ->
  exists st',
    update self instance commit kwargs st = (instance, st')
    /\ objects st' !! instance
       = Some {| inst_class := inst_class o;
                 inst_attrs := set_all (inst_attrs o) kwargs |}.
Proof.
  intros Ho.
  destruct (setattrs_spec instance kwargs st o Ho) as (st1 & Hst1 & Hi & _).
  destruct (save_spec instance commit st1) as (st2 & Hst2 & Hobj & _).
  exists st2. split; [unfold update, bind; by rewrite Hst1, Hst2|].
  by rewrite Hobj.
Qed.

(** X14. [create] returns an instance that did not exist before, of the
    manager's model, whose attributes are exactly the keyword arguments;
    every instance that existed is unchanged, and the new one is in the
    session, committed when [commit] is set. *)
Theorem create_fresh self commit kwargs st :
  NoDup (dict_keys kwargs) ->
  exists st' o',
    create self commit kwargs st = (length (objects st), st')
    /\ objects st !! length (objects st) = None
    /\ objects st' !! length (objects st) = Some o'
    /\ inst_class o' = model self
    /\ (forall attr, inst_attrs o' !! attr = dict_get kwargs attr)
    /\ (forall l o, objects st !! l = Some o -> objects st' !! l = Some o)
    /\ if commit
       then length (objects st) ∈ committed st'
       else length (objects st) ∈ pending st'
            /\ committed st' = committed st.
Proof.
  intros Hd.
  destruct (create_spec self commit kwargs st)
    as (st' & Hc & Hfresh & Hnew & Hother & Hsaved).
  exists st', {| inst_class := model self; inst_attrs := set_all ∅ kwargs |}.
  split; [done|]. split; [done|]. split; [done|]. split; [done|].
  split; [|split].
  - intros attr. cbn [inst_attrs]. rewrite set_all_lookup by done.
    by destruct (dict_get kwargs attr).
  - intros l o Hl. rewrite Hother; [done|].
    apply lookup_lt_Some in Hl. lia.
  - destruct commit; [by destruct Hsaved | done].
Qed.

(** X15. Two updates in a row are one update in which the later keyword
    arguments win: an attribute has the value of the second update if that
    names it, else that of the first if that names it, else the value it
    had.  So an update without keyword arguments changes no attribute. *)
Theorem update_twice self instance commit1 commit2 kwargs1 kwargs2 st o :
  objects st !! instance = Some o ->
  NoDup (dict_keys kwargs1) ->
  NoDup (dict_keys kwargs2) ->
  exists st1 st2 o2,
    update self instance commit1 kwargs1 st = (instance, st1)
    /\ update self instance commit2 kwargs2 st1 = (instance, st2)
    /\ objects st2 !! instance = Some o2
    /\ inst_class o2 = inst_class o
    /\ forall attr,
         inst_attrs o2 !! attr
         = match dict_get kwargs2 attr with
           | Some value => Some value
           | None => match dict_get kwargs1 attr with
                     | Some value => Some value
                     | None => inst_attrs o !! attr
                     end
           end.
Proof.
  intros Ho Hd1 Hd2.
  destruct (update_objects self instance commit1 kwargs1 st o Ho)
    as (st1 & Hu1 & Ho1).
  destruct (update_objects self instance commit2 kwargs2 st1 _ Ho1)
    as (st2 & Hu2 & Ho2).
  eexists st1, st2, _. split; [done|]. split; [done|]. split; [exact Ho2|].
  split; [done|]. intros attr. cbn [inst_attrs].
  by rewrite !set_all_lookup.
Qed.

End Facts.

Lemma create_fresh_witness :
  exists st' o',
    create users true [("id", VInt 2); ("name", VStr "grace")] example_store
    = (2, st')
    /\ objects st' !! 2 = Some o'
    /\ inst_attrs o' !! "name" = Some (VStr "grace")
    /\ inst_attrs o' !! "age" = None
    /\ objects st' !! 0 = objects example_store !! 0
    /\ 2 ∈ committed st'.
Proof.
  destruct (create_fresh users true [("id", VInt 2); ("name", VStr "grace")]
              example_store)
    as (st' & o' & Hc & _ & Ho' & _ & Hattrs & Hold & Hsaved).
  - apply (bool_decide_unpack _). vm_compute. exact I.
  - exists st', o'. split; [exact Hc|]. split; [exact Ho'|].
    split; [by rewrite Hattrs|]. split; [by rewrite Hattrs|].
    split; [by apply Hold | exact Hsaved].
Defined.

Lemma update_twice_witness :
  exists st1 st2 o2,
    update users 0 false [("name", VStr "ada l."); ("age", VInt 36)]
      example_store = (0, st1)
    /\ update users 0 false [("name", VStr "lovelace")] st1 = (0, st2)
    /\ objects st2 !! 0 = Some o2
    /\ inst_attrs o2 !! "name" = Some (VStr "lovelace")
    /\ inst_attrs o2 !! "age" = Some (VInt 36)
    /\ inst_attrs o2 !! "id" = Some (VInt 1).
Proof.
  destruct (update_twice users 0 false false
              [("name", VStr "ada l."); ("age", VInt 36)]
              [("name", VStr "lovelace")] example_store
              {| inst_class := User;
                 inst_attrs := <["id" := VInt 1]> (<["name" := VStr "ada"]> ∅) |})
    as (st1 & st2 & o2 & Hu1 & Hu2 & Ho2 & _ & Hattrs).
  - reflexivity.
  - apply (bool_decide_unpack _). vm_compute. exact I.
  - apply (bool_decide_unpack _). vm_compute. exact I.
  - exists st1, st2, o2. split; [exact Hu1|]. split; [exact Hu2|].
    split; [exact Ho2|]. by rewrite !Hattrs.
Defined.

End ModelManagerFacts.

(** ** commands.py: drop and reset together, and import-fixtures *)

Module CommandsFacts.
Import Commands.

Section Facts.

Variable DB : Type.
Variable Config : Type.
Variable db_ext_drop_all : DB -> DB.
Variable engine_execute : string -> DB -> DB.
Variable migrate_get_config : option string -> Config.
Variable alembic_upgrade : Config -> string -> DB -> DB.

(** X16. A confirmed [reset] is a confirmed [drop] followed by the upgrade
    to ['head']: both finish, the database after [reset] is the upgrade of
    the database after [drop], and [drop] itself takes the two dropping
    steps and never migrates. *)
Theorem reset_is_drop_then_upgrade (w : World DB Config) :
  let config := migrate_get_config None in
  exists w_drop w_reset,
    drop_command DB Config db_ext_drop_all engine_execute true w
    = (inr tt, w_drop)
    /\ reset_command DB Config db_ext_drop_all engine_execute
         migrate_get_config alembic_upgrade true w
       = (inr tt, w_reset)
    /\ database DB Config w_reset
       = alembic_upgrade config "head" (database DB Config w_drop)
    /\ database_steps Config (trace DB Config w_drop)
       = (database_steps Config (trace DB Config w)
          ++ [DropAll Config;
              Execute Config "DROP TABLE IF EXISTS alembic_version;"])%list
    /\ database_steps Config (trace DB Config w_reset)
       = (database_steps Config (trace DB Config w_drop)
          ++ [Upgrade Config config "head"])%list.
Proof.
  simpl. eexists _, _. split; [reflexivity|]. split; [reflexivity|].
  simpl. unfold database_steps. rewrite !List.filter_app. simpl.
  rewrite !app_nil_r, <- !app_assoc. done.
Qed.

End Facts.

Inductive FixturesError := NotADirectoryError (message : string).

Section ImportFixtures.

(** The database, [os.path.exists], and the loader of py_yaml_fixtures:
    [FixturesLoader(factory, fixtures_dir=dir).create_all()] changes the
    database and gives, in order, the identifier key and the [repr] of each
    model it created. *)
Variable DB : Type.
Variable path_exists : string -> bool.
Variable create_all : string -> DB -> list (string * string) * DB.

(** The database and the lines printed by [click.echo]. *)
Record Console := { db : DB; echoed : list string }.

(** [str(fixtures_dir)] in the error message. *)
Definition str_of_dir (fixtures_dir : option string) : string :=
  match fixtures_dir with
  | None => "None"
  | Some dir => dir
  end.

Definition loading_line (dir : string) : string :=
  "Loading fixtures from `" ++ dir ++ "` directory".

Definition created_line (item : string * string) : string :=
  "Created " ++ fst item ++ ": " ++ snd item.

(** [import_fixtures()]; [fixtures_dir] is the value of
    [current_app.config.get('PY_YAML_FIXTURES_DIR')], [None] or a [str]. *)
Definition import_fixtures (fixtures_dir : option string) (w : Console)
  : (FixturesError + unit) * Console :=
  let not_found :=
    match fixtures_dir with
    | None => true
    | Some dir => negb (Utils.str_bool dir) || negb (path_exists dir)
    end in
  if not_found
  then (inl (NotADirectoryError
               ("Could not find the " ++ str_of_dir fixtures_dir
                ++ " directory, please make sure "
                ++ "PY_YAML_FIXTURES_DIR is set correctly and the directory exists")),
        w)
  else
    let dir := str_of_dir fixtures_dir in
    let '(created, db') := create_all dir (db w) in
    (inr tt,
     {| db := db';
        echoed := (echoed w
                   ++ [loading_line dir]
                   ++ map created_line created
                   ++ ["Finished adding fixtures"])%list |}).

(** X17. When [import_fixtures] raises, the directory is not configured, is
    empty, or does not exist, and nothing has happened: no fixture is
    loaded and nothing is printed. *)
Theorem import_fixtures_raises fixtures_dir w e w' :
  import_fixtures fixtures_dir w = (inl e, w') ->
  w' = w
  /\ (fixtures_dir = None \/ fixtures_dir = Some EmptyString
      \/ exists dir, fixtures_dir = Some dir /\ path_exists dir = false).
Proof.
  unfold import_fixtures.
  destruct fixtures_dir as [[|c dir]|]; simpl.
  - intros [= _ <-]. auto.
  - destruct (path_exists (String c dir)) eqn:He; simpl.
    + by destruct (create_all _ _).
    + intros [= _ <-]. split; [done|]. right; right. eauto.
  - intros [= _ <-]. auto.
Qed.

(** X18. When [import_fixtures] returns, the directory is configured and
    exists, the database is the one the loader leaves, and the lines
    printed are the announcement, one line per created model in the
    loader's order, and the closing line. *)
Theorem import_fixtures_returns fixtures_dir w w' :
  import_fixtures fixtures_dir w = (inr tt, w') ->
  exists dir created,
    fixtures_dir = Some dir
    /\ dir <> EmptyString
    /\ path_exists dir = true
    /\ create_all dir (db w) = (created, db w')
    /\ echoed w'
       = (echoed w
          ++ [loading_line dir]
          ++ map created_line created
          ++ ["Finished adding fixtures"])%list
    /\ length (echoed w') = length (echoed w) + length created + 2.
Proof.
  unfold import_fixtures.
  destruct fixtures_dir as [[|c dir]|]; simpl; try done.
  destruct (path_exists (String c dir)) eqn:He; simpl; [|done].
  destruct (create_all (String c dir) (db w)) as [created db'] eqn:Hc.
  intros [= <-]. exists (String c dir), created. cbn [echoed db str_of_dir].
  split; [done|]. split; [done|]. split; [done|]. split; [done|].
  split; [done|].
  rewrite length_app. cbn [length]. rewrite length_app, List.length_map.
  simpl. lia.
Qed.

End ImportFixtures.

Lemma import_fixtures_raises_witness :
  {| db := 0; echoed := [] |} = {| db := 0; echoed := [] |}
  /\ (Some "fixtures" = None \/ Some "fixtures" = Some EmptyString
      \/ exists dir, Some "fixtures" = Some dir /\ (fun _ => false) dir = false).
Proof.
  apply (import_fixtures_raises nat (fun _ => false) (fun _ d => ([], d))
           (Some "fixtures") {| db := 0; echoed := [] |}
           (NotADirectoryError
              "Could not find the fixtures directory, please make sure PY_YAML_FIXTURES_DIR is set correctly and the directory exists")).
  reflexivity.
Defined.

Lemma import_fixtures_returns_witness :
  exists dir created,
    Some "db/fixtures" = Some dir
    /\ dir <> EmptyString
    /\ (fun _ => true) dir = true
    /\ (fun (_ : string) d => ([("User(ada)", "<User id=1>")], S d)) dir 0
       = (created, 1)
    /\ ["Loading fixtures from `db/fixtures` directory";
        "Created User(ada): <User id=1>"; "Finished adding fixtures"]
       = ([] ++ [loading_line dir]
          ++ map created_line created ++ ["Finished adding fixtures"])%list
    /\ 3 = 0 + length created + 2.
Proof.
  apply (import_fixtures_returns nat (fun _ => true)
           (fun _ d => ([("User(ada)", "<User id=1>")], S d))
           (Some "db/fixtures") {| db := 0; echoed := [] |}
           {| db := 1;
              echoed := ["Loading fixtures from `db/fixtures` directory";
                         "Created User(ada): <User id=1>";
                         "Finished adding fixtures"] |}).
  reflexivity.
Defined.

End CommandsFacts.

(** ** utils.py: OptionalMetaclass from the first class statement on *)

Module OptionalClasses.
Import Utils.

(** X19. The first class statement with the metaclass makes one class, the
    stand-in; whatever is done afterwards, further class statements
    included, makes no other class and changes nothing: the program has
    exactly one class more than before the first statement. *)
Theorem OptionalMetaclass_one_class
    object_dict type_dict classcell_required name clsdict st ops :
  optional_class st = None ->
  mro_lookup [clsdict; object_dict] mangled = None ->
  exists c st1,
    OptionalMetaclass_new object_dict name [] clsdict st = (c, st1)
    /\ classes st1 !! c
       = Some {| cls_name := name; cls_mro := [clsdict; object_dict] |}
    /\ length (classes st1) = S (length (classes st))
    /\ snd (run object_dict type_dict classcell_required c ops st1) = st1.
Proof.
  intros Ho Hm.
  pose proof (OptionalMetaclass_new_first object_dict name clsdict st Ho Hm)
    as Hfirst.
  destruct (OptionalMetaclass_new object_dict name [] clsdict st)
    as [c st1] eqn:Hnew.
  destruct Hfirst as [-> Hs]. exists (length (classes st)), st1.
  split; [done|].
  unfold OptionalMetaclass_new in Hnew. rewrite Ho in Hnew. simpl in Hnew.
  injection Hnew as <-. cbn [classes].
  split; [by rewrite lookup_app_r, Nat.sub_diag|].
  split; [rewrite length_app; simpl; lia|].
  by rewrite (run_stand_in object_dict type_dict classcell_required _ _ ops Hs).
Qed.

Lemma OptionalMetaclass_one_class_witness :
  exists c st1,
    OptionalMetaclass_new [] "OptionalClass" [] OptionalClass_dict
      {| classes := []; optional_class := None |} = (c, st1)
    /\ classes st1 !! c
       = Some {| cls_name := "OptionalClass";
                 cls_mro := [OptionalClass_dict; []] |}
    /\ length (classes st1) = 1
    /\ snd (run [] [] true c
              [ClassStatement "MySerializer" [0] [] []; SetAttr "x" VNone;
               ClassStatement "Other" [] [("__classcell__", VNone)] []] st1)
       = st1.
Proof.
  apply (OptionalMetaclass_one_class [] [] true "OptionalClass"
           OptionalClass_dict {| classes := []; optional_class := None |}
           [ClassStatement "MySerializer" [0] [] []; SetAttr "x" VNone;
            ClassStatement "Other" [] [("__classcell__", VNone)] []]);
    reflexivity.
Defined.

End OptionalClasses.

(** ** model_manager.py: what get_or_create leaves alone *)

Module GetOrCreateFacts.
Import SQLAlchemy.

Section Facts.
Context `{ORM}.

(** X20. After the query, [get_or_create] changes no instance that exists:
    it adds exactly one instance when it creates, and none otherwise. *)
Theorem get_or_create_frame self commit kwargs st :
  let '(found, st1) := get_by self kwargs st in
  let '(instance, created, st2) := get_or_create self commit kwargs st in
  (forall l o, objects st1 !! l = Some o -> objects st2 !! l = Some o)
  /\ length (objects st2)
     = if created then S (length (objects st1)) else length (objects st1).
Proof.
  unfold get_or_create, bind.
  destruct (get_by self kwargs st) as [found st1].
  destruct (py_not found st1) as [absent st1'] eqn:Hnot.
  assert (st1' = st1) as ->.
  { unfold py_not in Hnot. by injection Hnot. }
  destruct absent; [|done].
  destruct (create_spec self commit kwargs st1)
    as (st2 & Hcreate & Hfresh & Hnew & Hother & _).
  rewrite Hcreate. simpl. split.
  - intros l o Hl. rewrite Hother; [done|].
    apply lookup_lt_Some in Hl. lia.
  - apply lookup_lt_Some in Hnew.
    destruct (decide (length (objects st2) = S (length (objects st1))))
      as [|Hne]; [done|].
    assert (objects st2 !! S (length (objects st1)) = None) as Hnone.
    { rewrite Hother by lia. apply lookup_ge_None_2. lia. }
    apply lookup_ge_None_1 in Hnone. lia.
Qed.

End Facts.

End GetOrCreateFacts.
